(** * Tree-regularised training: the alternating scheduler and its helpers

    A shallow embedding of [src/main.py] (the epoch loop of [main], the
    parameter flattening [params_to_1D_vector]) and of [src/utils.py]
    ([post_pruning], [augment_data_with_dirichlet],
    [augment_data_with_gaussian]), with the properties the specification
    states about them.

    Conventions.
    - Python integers are [Z]; loop indices produced by [range] are [nat].
    - Floating-point scalars of [utils.py] are idealised as rationals [Q];
      the scalars of [main.py] only travel through the loop and stay an
      opaque type.
    - A raised Python exception ends the run: fallible code lives in a small
      error monad, and [main] adds a log of the calls it makes. *)

From Stdlib Require Import ZArith QArith Qabs Lia List Bool.
From stdpp Require Import base option list gmap fin_maps.

Local Open Scope Z_scope.

(** ** Exceptions and results *)

(** The exceptions the modelled code can raise.  [ConfigurationError] is the
    name the specification uses; no line of the source raises it. *)
Inductive exn : Type :=
| ValueError
| RuntimeError
| IndexError
| ShapeMismatch
| ConfigurationError.

Inductive result (A : Type) : Type :=
| Ok (a : A)
| Raise (e : exn).
Arguments Ok {A} a.
Arguments Raise {A} e.

#[global] Instance result_ret : MRet result := fun _ a => Ok a.
#[global] Instance result_bind : MBind result := fun _ _ f r =>
  match r with
  | Ok a => f a
  | Raise e => Raise e
  end.

Definition is_ok {A} (r : result A) : bool :=
  match r with Ok _ => true | Raise _ => false end.

(** ** A small model of torch tensors *)

Module Torch.

(** A tensor is its row-major sequence of values together with its autograd
    history: the identifiers of the leaf parameters that [backward] reaches
    from it.  A tensor with an empty history receives and passes on no
    gradient. *)
Record Tensor : Type := mkTensor {
  values : list Q;
  history : list nat
}.

Definition numel (t : Tensor) : nat := length (values t).

(** [t.data]: the same storage, cut off from the autograd graph. *)
Definition data (t : Tensor) : Tensor :=
  {| values := values t; history := [] |}.

(** [torch.flatten(t)]: a view; values are already kept row-major. *)
Definition flatten (t : Tensor) : Tensor :=
  {| values := values t; history := history t |}.

(** [torch.cat(ts, dim=0)] on one-dimensional tensors; an empty list of
    tensors is rejected. *)
Definition cat (ts : list Tensor) : result Tensor :=
  match ts with
  | [] => Raise RuntimeError
  | _ => Ok {| values := concat (map values ts);
               history := concat (map history ts) |}
  end.

(** [torch.vstack(ts)] on one-dimensional tensors: the rows, provided there
    is at least one and all have the same length. *)
Definition vstack (ts : list Tensor) : result (list Tensor) :=
  match ts with
  | [] => Raise RuntimeError
  | t :: _ =>
      if forallb (fun u => Nat.eqb (numel u) (numel t)) ts
      then Ok ts else Raise RuntimeError
  end.

End Torch.

Import Torch.

(** ** [main.py] *)

(** [params_to_1D_vector], lines 60-65: every parameter's [.data], flattened,
    then concatenated. *)
Definition params_to_1D_vector (model_parameters : list Tensor) : result Tensor :=
  let parameters :=
    fold_left (fun acc param => acc ++ [flatten (data param)]) model_parameters [] in
  cat parameters.

(** A trained surrogate: its own parameter tensors, which are leaves of the
    autograd graph, and the function it computes. *)
Record SurrogateNet : Type := mkSurrogateNet {
  surrogate_parameters : list Tensor;
  surrogate_function : list Q -> Q
}.

(** [surrogate_model(parameters)]: from the prediction autograd reaches the
    history of the input and the surrogate's own parameters. *)
Definition predict (sm : SurrogateNet) (x : Tensor) : Tensor :=
  {| values := [surrogate_function sm (values x)];
     history := history x ++ concat (map history (surrogate_parameters sm)) |}.

(** Modelled from the spec: the regularisation term of [tr.Tree_Regularizer],
    of the absent module [tree_regularizer]; section 4.4 gives it as
    [regularization_strength * surrogate.predict(parameter_vector)]. *)
Definition regularization_term (regularization_strength : Q) (sm : SurrogateNet)
    (parameter_vector : Tensor) : Tensor :=
  let prediction := predict sm parameter_vector in
  {| values := map (Qmult regularization_strength) (values prediction);
     history := history prediction |}.

(** [loss.backward()] accumulates a gradient into a leaf exactly when the
    leaf is in the history of the loss. *)
Definition receives_gradient (loss : Tensor) (leaf : nat) : Prop :=
  In leaf (history loss).

(** The leaves of a list of parameter tensors. *)
Definition leaves (ps : list Tensor) : list nat := concat (map history ps).

(** The modules [models], [tree_regularizer] and [decision_tree_utils] that
    [main.py] imports, together with torch's optimiser and numpy's mean, are
    collaborators of the loop: they are taken as an interface.  The only
    facts assumed of them are that the network has at least one parameter
    tensor and that no operation changes its architecture. *)
Class Collaborators : Type := {
  Model : Type;
  Surrogate : Type;
  Float : Type;
  Sample : Type;
  Output : Type;
  Loss : Type;
  (** sizes of the parameter tensors of [models.Net1], in definition order *)
  architecture : list nat;
  (** [model.parameters()] *)
  parameters : Model -> list Tensor;
  (** [model.train()] and [model.eval()] *)
  train_mode : Model -> Model;
  eval_mode : Model -> Model;
  (** [model(x_batch)] and the labels [y_batch] of a batch *)
  forward : Model -> list Sample -> Output;
  targets : list Sample -> Output;
  (** [nn.MSELoss()], called as [criterion(input=..., target=...)] *)
  MSELoss : Output -> Output -> Loss;
  (** [tr.Tree_Regularizer(regularization_strength)], called with
      [input], [target], [parameters] and [surrogate_model] *)
  Tree_Regularizer : Float -> Output -> Output -> Tensor -> option Surrogate -> Loss;
  (** [optimizer.zero_grad()] ... [loss.backward(); optimizer.step()] *)
  backward_and_step : Model -> Loss -> Model;
  (** [loss.item()] *)
  item : Loss -> Float;
  (** [np.array(running_loss).mean()] *)
  np_mean : list Float -> Float;
  (** [dtu.average_path_length(X_train, X_test, y_test, model)] *)
  average_path_length : list Sample -> list Sample -> Model -> Float;
  (** [tr.train_surrogate_model(inputs, APLs, epsilon, learning_rate, retrain)] *)
  train_surrogate_model :
    list Tensor -> list Float -> Float -> Float -> bool -> Surrogate * list Float;
  architecture_nonempty : architecture <> [];
  parameters_numel : forall m, map numel (parameters m) = architecture
}.

(** Where a call is made from: a standard epoch (lines 156-187), a
    surrogate-retrain epoch (lines 188-228), both with the 0-based epoch
    index, or the test phase (lines 238-271). *)
Inductive phase : Type :=
| StandardEpoch (epoch : nat)
| RetrainEpoch (epoch : nat)
| Evaluation.

(** The calls of interest, in program order.  [trained] is the value of
    [surrogate_model_trained] when the call is made; [surrogate_present]
    tells whether the [surrogate_model] argument is not [None]. *)
Inductive event : Type :=
| CallMSE (ph : phase) (trained : bool)
| CallTreeRegularizer (ph : phase) (trained : bool) (surrogate_present : bool)
| OptimizerStep (ph : phase)
| TrainSurrogate (epoch : nat) (observations : nat).

(** A computation that logs its calls and may raise. *)
Record logged (A : Type) : Type := Logged {
  calls : list event;
  outcome : result A
}.
Arguments Logged {A} calls outcome.
Arguments calls {A} l.
Arguments outcome {A} l.

#[global] Instance logged_ret : MRet logged := fun _ a => Logged [] (Ok a).
#[global] Instance logged_bind : MBind logged := fun _ _ f m =>
  match outcome m with
  | Ok a => Logged (calls m ++ calls (f a)) (outcome (f a))
  | Raise e => Logged (calls m) (Raise e)
  end.

Definition tell (evs : list event) : logged unit := Logged evs (Ok tt).
Definition lift {A} (r : result A) : logged A := Logged [] r.

(** [for x in xs: body], threading the loop-carried variables. *)
Fixpoint for_each {A S : Type} (body : S -> A -> logged S) (xs : list A) (s : S)
  : logged S :=
  match xs with
  | [] => mret s
  | x :: xs' => s' ← body s x; for_each body xs' s'
  end.

Section Scheduler.
Context `{Collaborators}.

(** The command-line arguments [main] reads (lines 119-124, 202-203). *)
Record config : Type := mkConfig {
  ep : Z;
  batch : Z;
  sb : Z;
  rs : Float;
  lr : Float;
  epsilon : Float;
  lr_sr : Float
}.

(** The mutable locals of [main] that the epoch loop reads and writes. *)
Record state : Type := mkState {
  model : Model;
  surrogate_model : option Surrogate;
  surrogate_model_trained : bool;
  input_batch_size_surrogate_training : Z;
  input_data_surrogate_training : list Tensor;
  APLs : list Float;
  training_loss : list Float;
  loss_surrogate_training : list (list Float)
}.

Definition set_model (m : Model) (s : state) : state :=
  mkState m (surrogate_model s) (surrogate_model_trained s)
          (input_batch_size_surrogate_training s)
          (input_data_surrogate_training s) (APLs s) (training_loss s)
          (loss_surrogate_training s).

(** Lines 130-131 and 147-150: the locals before the first epoch. *)
Definition initial_state (cfg : config) (model0 : Model) : state :=
  mkState model0 None false (sb cfg) [] [] [] [].

(** How [DataLoader] cuts a dataset into consecutive mini-batches (no
    shuffling, the last batch may be short). *)
Fixpoint batches_from {A} (n : nat) (cur : list A) (l : list A) : list (list A) :=
  match l with
  | [] => match cur with [] => [] | _ => [rev cur] end
  | x :: l' =>
      if Nat.eqb (S (length cur)) n
      then rev (x :: cur) :: batches_from n [] l'
      else batches_from n (x :: cur) l'
  end.

(** [DataLoader(dataset=..., batch_size=...)]: torch rejects a batch size
    that is not positive with [ValueError]. *)
Definition DataLoader {A} (dataset : list A) (batch_size : Z) : result (list (list A)) :=
  if batch_size <=? 0 then Raise ValueError
  else Ok (batches_from (Z.to_nat batch_size) [] dataset).

(** Lines 157-174: one mini-batch of a standard epoch. *)
Definition standard_batch (cfg : config) (epoch : nat)
    (acc : state * list Float) (b : list Sample) : logged (state * list Float) :=
  let '(s, running_loss) := acc in
  let y_hat := forward (model s) b in
  model_parameters ← lift (params_to_1D_vector (parameters (model s)));
  loss ← (if surrogate_model_trained s
          then _ ← tell [CallTreeRegularizer (StandardEpoch epoch) true
                           (bool_decide (is_Some (surrogate_model s)))];
               mret (Tree_Regularizer (rs cfg) (targets b) y_hat model_parameters
                                      (surrogate_model s))
          else _ ← tell [CallMSE (StandardEpoch epoch) false];
               mret (MSELoss (targets b) y_hat));
  _ ← tell [OptimizerStep (StandardEpoch epoch)];
  mret (set_model (backward_and_step (model s) loss) s, running_loss ++ [item loss]).

(** Lines 208-220: one mini-batch of the pass that follows a retrain. *)
Definition retrain_batch (cfg : config) (epoch : nat)
    (acc : state * list Float) (b : list Sample) : logged (state * list Float) :=
  let '(s, running_loss) := acc in
  let y_hat := forward (model s) b in
  model_parameters ← lift (params_to_1D_vector (parameters (model s)));
  _ ← tell [CallTreeRegularizer (RetrainEpoch epoch) (surrogate_model_trained s)
              (bool_decide (is_Some (surrogate_model s)))];
  let loss := Tree_Regularizer (rs cfg) (targets b) y_hat model_parameters
                               (surrogate_model s) in
  _ ← tell [OptimizerStep (RetrainEpoch epoch)];
  mret (set_model (backward_and_step (model s) loss) s, running_loss ++ [item loss]).

(** Lines 153-228: the body of the epoch loop. *)
Definition epoch_body (cfg : config) (data_train data_test : list Sample)
    (data_train_loader : list (list Sample)) (s : state) (epoch : nat) : logged state :=
  let s := set_model (train_mode (model s)) s in
  if 0 <? input_batch_size_surrogate_training s then
    '(s, running_loss) ← for_each (standard_batch cfg epoch) data_train_loader (s, []);
    model_parameters ← lift (params_to_1D_vector (parameters (model s)));
    let apl := average_path_length data_train data_test (model s) in
    mret (mkState (model s) (surrogate_model s) (surrogate_model_trained s)
                  (input_batch_size_surrogate_training s - 1)
                  (input_data_surrogate_training s ++ [model_parameters])
                  (APLs s ++ [apl])
                  (training_loss s ++ [np_mean running_loss])
                  (loss_surrogate_training s))
  else
    stacked ← lift (vstack (input_data_surrogate_training s));
    let '(sm, sr_loss) :=
      train_surrogate_model stacked (APLs s) (epsilon cfg) (lr_sr cfg) true in
    _ ← tell [TrainSurrogate epoch (length stacked)];
    let s := mkState (model s) (Some sm) true
                     (input_batch_size_surrogate_training s)
                     (input_data_surrogate_training s) (APLs s) (training_loss s)
                     (loss_surrogate_training s ++ [sr_loss]) in
    '(s, running_loss) ← for_each (retrain_batch cfg epoch) data_train_loader (s, []);
    mret (mkState (model s) (surrogate_model s) (surrogate_model_trained s)
                  (sb cfg) [] []
                  (training_loss s ++ [np_mean running_loss])
                  (loss_surrogate_training s)).

(** The first [n] iterations of [for epoch in range(num_epochs)]. *)
Definition run_epochs (cfg : config) (data_train data_test : list Sample)
    (data_train_loader : list (list Sample)) (n : nat) (s : state) : logged state :=
  for_each (epoch_body cfg data_train data_test data_train_loader) (seq 0 n) s.

(** Line 152: the whole loop. *)
Definition epoch_loop (cfg : config) (data_train data_test : list Sample)
    (data_train_loader : list (list Sample)) (s : state) : logged state :=
  run_epochs cfg data_train data_test data_train_loader (Z.to_nat (ep cfg)) s.

(** Lines 230-231: [writer.add_scalar('Training Loss', training_loss[i], i)]
    for [i] in [range(num_epochs)]; the scalars written, or [IndexError]. *)
Definition log_training_loss (num_epochs : Z) (training_loss : list Float)
    : result (list (nat * Float)) :=
  mapM (fun i => match nth_error training_loss i with
                 | Some x => Ok (i, x)
                 | None => Raise IndexError
                 end)
       (seq 0 (Z.to_nat num_epochs)).

(** Lines 246-255 and 260-269: one mini-batch of the test phase.  The loss is
    always the tree-regularised one, whatever [surrogate_model] holds. *)
Definition evaluation_batch (cfg : config) (s : state)
    (losses : list Float) (b : list Sample) : logged (list Float) :=
  let y_hat := forward (model s) b in
  model_parameters ← lift (params_to_1D_vector (parameters (model s)));
  _ ← tell [CallTreeRegularizer Evaluation (surrogate_model_trained s)
              (bool_decide (is_Some (surrogate_model s)))];
  let loss := Tree_Regularizer (rs cfg) y_hat (targets b) model_parameters
                               (surrogate_model s) in
  mret (losses ++ [item loss]).

(** [main], lines 119-271: the data loaders, the epoch loop, the per-epoch
    scalar log and the two test passes.  Plotting, the confusion matrices and
    the decision trees fitted afterwards touch none of the scheduler's
    variables and are left out; so is the log of the surrogate losses (lines
    233-235), which only reads indices below the lengths it iterates over. *)
Definition main (cfg : config) (model0 : Model) (data_train data_test : list Sample)
    : logged (state * list Float * list Float) :=
  data_train_loader ← lift (DataLoader data_train (batch cfg));
  data_test_loader ← lift (DataLoader data_test (batch cfg));
  s ← epoch_loop cfg data_train data_test data_train_loader (initial_state cfg model0);
  _ ← lift (log_training_loss (ep cfg) (training_loss s));
  let s := set_model (eval_mode (model s)) s in
  loss_with_train_data ← for_each (evaluation_batch cfg s) data_train_loader [];
  loss_with_test_data ← for_each (evaluation_batch cfg s) data_test_loader [];
  mret (s, loss_with_train_data, loss_with_test_data).

(** *** Observations on a run *)

(** The state after [n] completed epochs, when the run got that far. *)
Definition state_after (cfg : config) (model0 : Model) (data_train data_test : list Sample)
    (loader : list (list Sample)) (n : nat) : result state :=
  outcome (run_epochs cfg data_train data_test loader n (initial_state cfg model0)).

(** The 1-based numbers of the epochs in which the surrogate was retrained
    (the number [main] prints as [epoch + 1]). *)
Definition retrain_epochs (evs : list event) : list nat :=
  omap (fun ev => match ev with
                  | TrainSurrogate epoch _ => Some (S epoch)
                  | _ => None
                  end) evs.

Definition is_optimizer_step (ev : event) : bool :=
  match ev with OptimizerStep _ => true | _ => false end.

(** The number of optimiser steps taken. *)
Definition training_steps (evs : list event) : nat :=
  length (filter (fun ev => is_optimizer_step ev = true) evs).

(** What the loss-selection rule asks of one call: the tree-regularised loss
    is never called while the flag is false, and a batch step of a standard
    epoch made while the flag is true uses it. *)
Definition loss_selection_ok (ev : event) : bool :=
  match ev with
  | CallMSE (StandardEpoch _) trained => negb trained
  | CallTreeRegularizer _ trained present => trained && present
  | _ => true
  end.

(** The number of scalars of the network. *)
Definition parameter_count : nat := sum_list architecture.

(** The loss call a standard-epoch batch makes in state [s]. *)
Definition standard_call (epoch : nat) (s : state) : event :=
  if surrogate_model_trained s
  then CallTreeRegularizer (StandardEpoch epoch) true
                           (bool_decide (is_Some (surrogate_model s)))
  else CallMSE (StandardEpoch epoch) false.

(** The loss call a batch of the post-retrain pass makes in state [s]. *)
Definition retrain_call (epoch : nat) (s : state) : event :=
  CallTreeRegularizer (RetrainEpoch epoch) (surrogate_model_trained s)
                      (bool_decide (is_Some (surrogate_model s))).

(** The loss call a batch of the test phase makes in state [s]. *)
Definition evaluation_call (s : state) : event :=
  CallTreeRegularizer Evaluation (surrogate_model_trained s)
                      (bool_decide (is_Some (surrogate_model s))).

(** What holds after [n] completed epochs of a run whose interval is
    [N >= 1], for the state [s] reached and the calls [evs] logged. *)
Record cycle_invariant (cfg : config) (n : nat) (evs : list event) (s : state)
  : Prop := {
  inv_buffer :
    length (input_data_surrogate_training s) = (n mod S (Z.to_nat (sb cfg)))%nat;
  inv_countdown :
    input_batch_size_surrogate_training s =
    sb cfg - Z.of_nat (length (input_data_surrogate_training s));
  inv_APLs : length (APLs s) = length (input_data_surrogate_training s);
  inv_numel :
    Forall (fun t => numel t = parameter_count) (input_data_surrogate_training s);
  inv_training_loss : length (training_loss s) = n;
  inv_flag : surrogate_model_trained s = bool_decide (Z.to_nat (sb cfg) < n)%nat;
  inv_surrogate :
    bool_decide (is_Some (surrogate_model s)) = surrogate_model_trained s;
  inv_retrains :
    retrain_epochs evs =
    filter (fun k => (k mod S (Z.to_nat (sb cfg)))%nat = 0%nat) (seq 1 n);
  inv_losses : Forall (fun ev => loss_selection_ok ev = true) evs
}.

(** The number of epochs completed since the last surrogate-retrain epoch
    (since the start when there was none), after [n] epochs with log [evs]. *)
Definition epochs_since_last_retrain (n : nat) (evs : list event) : nat :=
  n - List.last (retrain_epochs evs) 0%nat.




(** What the specification asks for an invalid configuration: the run ends
    in [ConfigurationError] and no optimiser step has been taken. *)
Definition fails_fast {A} (r : logged A) : Prop :=
  outcome r = Raise ConfigurationError /\ training_steps (calls r) = 0%nat.

End Scheduler.

(** ** A concrete instance of the collaborators

    A network with a single weight [w] predicting [w * x], trained by a crude
    descent step, with a constant surrogate (the mean of the observed APLs).
    It shows that the interface is inhabited and lets the loop be run on
    concrete inputs.  The interface makes every collaborator a total
    function; this regulariser takes the term of an absent surrogate as 0. *)
Module OneWeight.

Definition mean (l : list Q) : Q :=
  (fold_right Qplus 0 l / inject_Z (Z.of_nat (length l)))%Q.

Definition squared_error (input target : list Q) : Q :=
  mean (zip_with (fun a b => (a - b) * (a - b))%Q input target).

Lemma one_tensor : [1%nat] <> [].
Proof. discriminate. Qed.

Definition net : Collaborators := {|
  Model := Q;
  Surrogate := Q;
  Float := Q;
  Sample := Q * Q;
  Output := list Q;
  Loss := Q;
  architecture := [1%nat];
  parameters := fun w => [mkTensor [w] [0%nat]];
  train_mode := fun w => w;
  eval_mode := fun w => w;
  forward := fun w b => map (fun xy => w * fst xy)%Q b;
  targets := fun b => map snd b;
  MSELoss := squared_error;
  Tree_Regularizer := fun rs input target _ sm =>
    (squared_error input target + rs * default 0 sm)%Q;
  backward_and_step := fun w loss => (w - loss / 10)%Q;
  item := fun loss => loss;
  np_mean := mean;
  average_path_length := fun _ _ w => Qabs w;
  train_surrogate_model := fun _ apls _ _ _ => (mean apls, [0%Q]);
  architecture_nonempty := one_tensor;
  parameters_numel := fun _ => eq_refl
|}.

(** Two training samples, one test sample. *)
Definition data_train : list (Q * Q) := [(1, 2); (2, 4)]%Q.
Definition data_test : list (Q * Q) := [(3, 6)]%Q.

Definition cfg (ep batch sb : Z) : @config net :=
  @mkConfig net ep batch sb (1 # 1000) (1 # 1000) (1 # 5) (1 # 100).

(** One sample per batch: two batches per pass. *)
Definition loader : list (list (Q * Q)) := @batches_from (Q * Q) 1 [] data_train.

End OneWeight.

(** ** [utils.py] *)

(** *** Numeric helpers (numpy and torch on rationals) *)

Definition Qsum (l : list Q) : Q := fold_right Qplus 0%Q l.

(** [np.mean] of a one-dimensional array. *)
Definition Qmean (l : list Q) : Q := (Qsum l / inject_Z (Z.of_nat (length l)))%Q.

Definition Qmin' (a b : Q) : Q := if Qle_bool a b then a else b.
Definition Qmax' (a b : Q) : Q := if Qle_bool a b then b else a.

(** [np.min] and [np.max]: an empty array is refused. *)
Definition np_min (l : list Q) : result Q :=
  match l with
  | [] => Raise ValueError
  | x :: l' => Ok (fold_left Qmin' l' x)
  end.

Definition np_max (l : list Q) : result Q :=
  match l with
  | [] => Raise ValueError
  | x :: l' => Ok (fold_left Qmax' l' x)
  end.

(** [a[mask]] for a boolean mask of the same length. *)
Fixpoint select {A} (a : list A) (mask : list bool) : list A :=
  match a, mask with
  | x :: a', b :: mask' => if b then x :: select a' mask' else select a' mask'
  | _, _ => []
  end.

Definition dot (u v : list Q) : Q := Qsum (zip_with Qmult u v).

(** Column [j] of a matrix given by its rows. *)
Definition column (j : nat) (B : list (list Q)) : list Q :=
  map (fun row => nth j row 0%Q) B.

(** [A @ B] for matrices given by their rows; the inner dimensions must
    agree. *)
Definition matmul (A B : list (list Q)) : result (list (list Q)) :=
  if forallb (fun row => Nat.eqb (length row) (length B)) A
  then Ok (map (fun row => map (fun j => dot row (column j B))
                               (seq 0 (length (hd [] B)))) A)
  else Raise RuntimeError.

(** [torch.vstack] of one-dimensional tensors given by their values. *)
Definition vstack_rows (rows : list (list Q)) : result (list (list Q)) :=
  match rows with
  | [] => Raise RuntimeError
  | r :: _ =>
      if forallb (fun r' => Nat.eqb (length r') (length r)) rows
      then Ok rows else Raise RuntimeError
  end.

(** *** [post_pruning], lines 110-149 *)

Section PostPruning.

(** The feature matrix and the labels are only handed on to scikit-learn. *)
Variables Features Labels : Type.

(** [DecisionTreeClassifier(random_state=42).cost_complexity_pruning_path(X, y)]:
    the pair [(ccp_alphas, impurities)], or the exception scikit-learn raises
    while it fits the tree (on a dataset without samples, say). *)
Variable cost_complexity_pruning_path : Features -> Labels -> result (list Q * list Q).

(** [cross_val_score(DecisionTreeClassifier(ccp_alpha=a), X, y, cv=5,
    scoring="neg_mean_squared_error")]: one score per fold, or the exception
    of the splitter, which refuses with [ValueError] to cut a dataset into
    more folds than it has samples. *)
Variable cross_val_score : Q -> Features -> Labels -> result (list Q).

(** [np.std]. *)
Variable np_std : list Q -> Q.

(** Lines 128-131: the alphas of the path, [ccp_alphas[:-1]]. *)
Definition candidate_alphas (X : Features) (y : Labels) : result (list Q) :=
  path ← cost_complexity_pruning_path X y;
  Ok (removelast (fst path)).

(** Lines 132-137: one call of [cross_val_score] per alpha, in order; the
    first call that raises ends the loop. *)
Definition scores (ccp_alphas : list Q) (X : Features) (y : Labels)
  : result (list (list Q)) :=
  mapM (fun ccp_alpha => cross_val_score ccp_alpha X y) ccp_alphas.

(** Line 140: [fold_mse = -np.mean(scores, 1)], one entry per alpha. *)
Definition fold_mse (scores : list (list Q)) : list Q :=
  map (fun score => (- Qmean score)%Q) scores.

(** Lines 128-149.  The classifiers fitted along the way are scikit-learn's
    business; what is left is the selection of the alpha. *)
Definition post_pruning (X : Features) (y : Labels) : result Q :=
  ccp_alphas ← candidate_alphas X y;
  if negb (Nat.eqb (length ccp_alphas) 0) then
    scores ← scores ccp_alphas X y;
    let fold_mse := fold_mse scores in
    lowest ← np_min fold_mse;
    let mask := map (fun e => Qle_bool e (lowest + np_std fold_mse)) fold_mse in
    np_max (select ccp_alphas mask)
  else Ok 0%Q.

End PostPruning.

Arguments candidate_alphas {Features Labels} _ X y.
Arguments scores {Features Labels} _ ccp_alphas X y.
Arguments post_pruning {Features Labels} _ _ _ X y.

(** *** The model objects of [utils.py] and the store they live in *)

Inductive device : Type := cpu | mps | cuda.

(** A network object: the parameter tensors of its [feed_forward] stack (each
    by its values), its training flag and the device it is on.

    Python variables hold references: a store, a [gmap positive Net], maps
    references to objects, and two names bound to one reference see each
    other's writes. *)
Record Net : Type := mkNet {
  net_parameters : list (list Q);
  net_training : bool;
  net_device : device
}.

(** [model.get_parameter_vector]. *)
Definition get_parameter_vector (net : Net) : list Q := concat (net_parameters net).

(** Cut a flat vector into consecutive segments of the given lengths. *)
Fixpoint split_segments (sizes : list nat) (vec : list Q) : list (list Q) :=
  match sizes with
  | [] => []
  | n :: sizes' => firstn n vec :: split_segments sizes' (skipn n vec)
  end.

(** Modelled from the spec: [model.vector_to_parameters] of the absent
    [models] module, the "restore" of section 4.1.  It writes the segments of
    the vector back into the parameter tensors, in the same traversal order,
    and fails with [ShapeMismatch], leaving the parameters unchanged, when
    the length of the vector is not the total parameter count. *)
Definition vector_to_parameters (net : Net) (vec : list Q) : result Net :=
  if Nat.eqb (length vec) (length (get_parameter_vector net))
  then Ok (mkNet (split_segments (map length (net_parameters net)) vec)
                 (net_training net) (net_device net))
  else Raise ShapeMismatch.

(** [model.to(device)] and [model.eval()], both in place. *)
Definition to_device (d : device) (net : Net) : Net :=
  mkNet (net_parameters net) (net_training net) d.

Definition eval (net : Net) : Net :=
  mkNet (net_parameters net) false (net_device net).

(** [copy.deepcopy(model)]: a new object with the same contents, at a
    reference the store does not use yet. *)
Definition deepcopy (h : gmap positive Net) (model : positive)
  : option (positive * gmap positive Net) :=
  net ← h !! model;
  let l := fresh (dom h) in
  Some (l, <[l := net]> h).

Section Augmentation.

(** The reference inputs are only handed on to [compute_APL]. *)
Variable Data : Type.

(** [model.compute_APL(X_train)] of the absent [models] module, as a function
    of the parameters the model holds when it is called. *)
Variable compute_APL : list (list Q) -> Data -> Q.

(** [np.random.dirichlet(alpha, size)]: the [size] weight vectors drawn. *)
Variable np_random_dirichlet : list Z -> nat -> list (list Q).

(** [np.random.normal(loc, scale)] on an array: the [i]-th draw of the call. *)
Variable np_random_normal : nat -> list Q -> list Q -> list Q.

(** Lines 279-284: the loop over the rows of [parameters_].  It works on the
    object [model] refers to. *)
Fixpoint dirichlet_loop (X_train : Data) (model : positive) (rows : list (list Q))
    (h : gmap positive Net) (parameters_new : list (list Q)) (APLs_new : list Q)
  
  : gmap positive Net * result (list (list Q) * list Q) :=
  match rows with
  | [] => (h, Ok (parameters_new, APLs_new))
  | param :: rows' =>
      match h !! model with
      | None => (h, Raise RuntimeError)
      | Some net =>
          match vector_to_parameters net param with
          | Raise e => (h, Raise e)
          | Ok net' =>
              let h := <[model := net']> h in
              let APL := compute_APL (net_parameters net') X_train in
              dirichlet_loop X_train model rows' h
                             (parameters_new ++ [param]) (APLs_new ++ [APL])
          end
      end
  end.

(** [augment_data_with_dirichlet], lines 245-290.  A negative sample count
    is refused by numpy. *)
Definition augment_data_with_dirichlet (h : gmap positive Net) (X_train : Data)
    (parameters : list (list Q)) (model : positive) (dev : device) (num_new_samples : Z)
  
  : gmap positive Net * result (list (list Q) * list Q) :=
  let alpha := repeat 1 (length parameters) in
  if num_new_samples <? 0 then (h, Raise ValueError) else
  let samples := np_random_dirichlet alpha (Z.to_nat num_new_samples) in
  match vstack_rows parameters with
  | Raise e => (h, Raise e)
  | Ok parameters =>
      match matmul samples parameters with
      | Raise e => (h, Raise e)
      | Ok parameters_ =>
          let h := alter (to_device dev) model h in
          let h := alter eval model h in
          dirichlet_loop X_train model parameters_ h [] []
      end
  end.

(** Lines 321-334: one round of the Gaussian loop, the [i]-th.  Every
    parameter tensor of the copy is replaced by a draw around it with
    standard deviation [0.1 * |param|]. *)
Definition gaussian_round (X_train : Data) (model : positive) (dev : device) (i : nat)
    (acc : gmap positive Net * list (list Q) * list Q)
  : option (gmap positive Net * list (list Q) * list Q) :=
  let '(h, parameters, APLs) := acc in
  '(model_copy, h) ← deepcopy h model;
  let h := alter eval model_copy h in
  net ← h !! model_copy;
  let augmented :=
    imap (fun j param =>
            np_random_normal (i * length (net_parameters net) + j) param
                             (map (fun x => (1 # 10) * Qabs x)%Q param))
         (net_parameters net) in
  let net' := mkNet augmented (net_training net) dev in
  let h := <[model_copy := net']> h in
  Some (h, parameters ++ [get_parameter_vector net'],
        APLs ++ [compute_APL (net_parameters net') X_train]).

(** [augment_data_with_gaussian], lines 293-336.  [None] only when [model]
    refers to nothing, which a Python reference cannot do. *)
Definition augment_data_with_gaussian (h : gmap positive Net) (X_train : Data) (model : positive)
    (dev : device) (size : Z)
  : option (gmap positive Net * list (list Q) * list Q) :=
  foldl (fun acc i => acc ≫= gaussian_round X_train model dev i)
        (Some (h, [], [])) (seq 0 (Z.to_nat size)).

End Augmentation.

Arguments dirichlet_loop {Data} compute_APL X_train model rows h parameters_new APLs_new.
Arguments augment_data_with_dirichlet {Data} compute_APL np_random_dirichlet
  h X_train parameters model dev num_new_samples.
Arguments gaussian_round {Data} compute_APL np_random_normal X_train model dev i acc.
Arguments augment_data_with_gaussian {Data} compute_APL np_random_normal
  h X_train model dev size.

(** A convex combination [sum_i w_i * p_i] of vectors of length [d]. *)
Definition vadd (u v : list Q) : list Q := zip_with Qplus u v.
Definition vscale (c : Q) (v : list Q) : list Q := map (Qmult c) v.

Definition combination (d : nat) (w : list Q) (ps : list (list Q)) : list Q :=
  fold_right vadd (repeat 0%Q d) (zip_with vscale w ps).

(** Weights on the simplex: one per observation, none negative, summing
    to one. *)
Definition simplex (k : nat) (w : list Q) : Prop :=
  length w = k /\ Forall (fun x => (0 <= x)%Q) w /\ (Qsum w == 1)%Q.

(** ** A two-tensor network and its surrogate *)

Module Gradients.

(** A primary model with leaves 0 and 1, a surrogate with leaf 7. *)
Definition primary : list Tensor :=
  [mkTensor [1; 2]%Q [0%nat]; mkTensor [3%Q] [1%nat]].

Definition surrogate : SurrogateNet :=
  mkSurrogateNet [mkTensor [1; 1; 1]%Q [7%nat]] Qsum.

End Gradients.

(** ** A live model in a store *)

Module LiveModel.

(** The model under training: three parameters in two tensors. *)
Definition live : Net := mkNet [[1; 2]; [3]]%Q true cpu.

(** The store: the only reference is [1], the live model. *)
Definition heap : gmap positive Net := {[ 1%positive := live ]}.

(** A complexity proxy that is never negative. *)
Definition apl (ps : list (list Q)) (_ : unit) : Q :=
  Qsum (map Qabs (concat ps)).

(** A draw that puts all the weight on the first observation: a vertex of
    the simplex. *)
Definition vertex (alpha : list Z) (m : nat) : list (list Q) :=
  repeat (match alpha with [] => [] | _ :: rest => 1%Q :: map (fun _ => 0%Q) rest end) m.

End LiveModel.

(** ** Pruning paths and cross-validation in five folds *)

Module Pruning.

(** A dataset: one row of features and one label per sample. *)
Definition Features : Type := list (list Q).
Definition Labels : Type := list Z.

(** Ten samples on a line, the classes alternating in pairs. *)
Definition X : Features := map (fun i => [inject_Z i]) [0; 1; 2; 3; 4; 5; 6; 7; 8; 9].
Definition y : Labels := [0; 0; 1; 1; 0; 0; 1; 1; 0; 0].

(** A path with four alphas; the last one (the root-only tree) is dropped. *)
Definition path (_ : Features) (_ : Labels) : result (list Q * list Q) :=
  Ok ([0; 1 # 100; 1 # 50; 1 # 10], [0; 1 # 20; 1 # 10; 1 # 2])%Q.

(** Cross-validation in five folds: fewer than five samples are refused;
    otherwise five equal fold scores per alpha, for mean squared errors
    0.20, 0.21 and 0.30. *)
Definition cross_val_score (ccp_alpha : Q) (X : Features) (_ : Labels)
  : result (list Q) :=
  if (length X <? 5)%nat then Raise ValueError
  else Ok (repeat (if Qeq_bool ccp_alpha 0 then - (20 # 100)
                   else if Qeq_bool ccp_alpha (1 # 100) then - (21 # 100)
                   else - (30 # 100))%Q 5).

Definition spread (_ : list Q) : Q := (2 # 100)%Q.

(** Four samples in two classes, split by one threshold: the path of the
    full tree has the alphas 0 and 0.5. *)
Definition X_small : Features := [[0]; [1]; [2]; [3]]%Q.
Definition y_small : Labels := [0; 0; 1; 1].

Definition path_small (_ : Features) (_ : Labels) : result (list Q * list Q) :=
  Ok ([0; 1 # 2], [0; 1 # 2])%Q.

End Pruning.

(** ** Further observations on the log *)

(** The number of observations each surrogate retrain was given, in program
    order. *)
Definition retrain_sizes (evs : list event) : list nat :=
  omap (fun ev => match ev with
                  | TrainSurrogate _ observations => Some observations
                  | _ => None
                  end) evs.

(** A call of the plain loss or an optimiser step of a standard epoch. *)
Definition plain_training_event (ev : event) : Prop :=
  exists epoch, ev = CallMSE (StandardEpoch epoch) false \/
                ev = OptimizerStep (StandardEpoch epoch).

(** ** Colours and labels of the plots *)

From Stdlib Require String.

Module Plotting.
Import String.
#[local] Open Scope string_scope.

(** [colormap], [main.py] lines 74-75 and [utils.py] lines 94-107: blue for
    the labels equal to 1, red for every other label. *)
Definition colormap (Y : list Q) : list string :=
  List.map (fun y => if Qeq_bool y 1 then "b" else "r") Y.

(** [main], lines 273-274: the colours of the predicted points,
    [['b' if y > 0.5 else 'r' for y in y_predicted]]. *)
Definition colormap_predicted (y_predicted : list Q) : list string :=
  List.map (fun y => if negb (Qle_bool y (1 # 2)) then "b" else "r") y_predicted.

(** [main], lines 315, 322 and 357: the predicted labels,
    [[1 if y > 0.5 else -1 for y in y_predicted]]. *)
Definition y_pred (y_predicted : list Q) : list Q :=
  List.map (fun y => if negb (Qle_bool y (1 # 2)) then 1 else - (1))%Q y_predicted.

End Plotting.

(** ** [get_data_loader] and [dataloader_to_numpy], [utils.py] lines 18-91 *)

Module Loaders.

(** What the constructors called here can raise: [TensorDataset] asserts
    that its tensors agree on their first dimension (and indexing the first
    dimension of a scalar fails), [DataLoader] refuses a batch size that is
    not positive and, when it shuffles, a dataset without samples. *)
Inductive error : Type :=
| AssertionError
| IndexError
| ValueError.

Inductive built (A : Type) : Type :=
| Built (a : A)
| Failed (e : error).
Arguments Built {A} a.
Arguments Failed {A} e.

#[global] Instance built_ret : MRet built := fun _ a => Built a.
#[global] Instance built_bind : MBind built := fun _ _ f r =>
  match r with
  | Built a => f a
  | Failed e => Failed e
  end.

(** An array or tensor: its shape and its entries in row-major order. *)
Record ndarray : Type := mkArray {
  shape : list nat;
  entries : list Q
}.

Inductive dtype : Type := float32 | float64 | int64.

(** [len(a.shape)]. *)
Definition ndim (a : ndarray) : nat := length (shape a).

(** [t.size(0)]; a tensor without dimensions has no first one. *)
Definition size0 (a : ndarray) : option nat := head (shape a).

(** [a.reshape(-1, 1)]: one column, as many rows as there are entries. *)
Definition reshape_column (a : ndarray) : ndarray :=
  mkArray [length (entries a); 1%nat] (entries a).

Record TensorDataset : Type := mkTensorDataset {
  tensors_X : ndarray;
  tensors_y : ndarray
}.

(** [TensorDataset(X, y)]. *)
Definition new_TensorDataset (X y : ndarray) : built TensorDataset :=
  match size0 X, size0 y with
  | Some n, Some k =>
      if Nat.eqb n k then Built (mkTensorDataset X y) else Failed AssertionError
  | _, _ => Failed IndexError
  end.

Record DataLoader : Type := mkDataLoader {
  dataset : TensorDataset;
  batch_size : Z;
  shuffle : bool
}.

(** [len(dataset)]: the first dimension of the features. *)
Definition len (data : TensorDataset) : nat :=
  match size0 (tensors_X data) with
  | Some n => n
  | None => 0
  end.

(** [DataLoader(dataset=..., batch_size=..., shuffle=...)].  With [shuffle]
    the constructor first builds a [RandomSampler], which refuses a dataset
    without samples; the batch sampler then refuses a batch size that is not
    positive. *)
Definition new_DataLoader (data : TensorDataset) (batch_size : Z) (shuffle : bool)
  : built DataLoader :=
  if shuffle && Nat.eqb (len data) 0 then Failed ValueError
  else if batch_size <=? 0 then Failed ValueError
  else Built (mkDataLoader data batch_size shuffle).

Section Loading.

(** [torch.tensor(a, dtype=...)] converts every entry and keeps the shape;
    the conversion of one entry is left open. *)
Variable cast : dtype -> Q -> Q.

Definition tensor (a : ndarray) (t : dtype) : ndarray :=
  mkArray (shape a) (map (cast t) (entries a)).

(** [get_data_loader], lines 50-70.  The rank of [y_train] alone decides
    whether all three label arrays are reshaped into columns. *)
Definition get_data_loader (X_train y_train X_test y_test X_val y_val : ndarray)
    (X_type y_type : dtype) (batch_size : Z)
  : built (DataLoader * DataLoader * DataLoader) :=
  let X_train := tensor X_train X_type in
  let X_test := tensor X_test X_type in
  let X_val := tensor X_val X_type in
  let '(y_train, y_test, y_val) :=
    if Nat.leb (ndim y_train) 2
    then (tensor (reshape_column y_train) y_type,
          tensor (reshape_column y_test) y_type,
          tensor (reshape_column y_val) y_type)
    else (tensor y_train y_type, tensor y_test y_type, tensor y_val y_type) in
  data_train ← new_TensorDataset X_train y_train;
  data_train_loader ← new_DataLoader data_train batch_size true;
  data_test ← new_TensorDataset X_test y_test;
  data_test_loader ← new_DataLoader data_test batch_size false;
  data_val ← new_TensorDataset X_val y_val;
  data_val_loader ← new_DataLoader data_val batch_size false;
  Built (data_train_loader, data_test_loader, data_val_loader).

End Loading.

(** [dataloader_to_numpy], lines 88-91: [dataloader.dataset[:]] is the whole
    dataset, whatever the batch size and the shuffling. *)
Definition dataloader_to_numpy (dataloader : DataLoader) : ndarray * ndarray :=
  (tensors_X (dataset dataloader), tensors_y (dataset dataloader)).

End Loaders.

(** ** The samples of the Gaussian augmentation *)

(** Lines 324-329, for round [i] on a model holding [net]: every parameter
    tensor is replaced by a draw around it, with standard deviation a tenth
    of the magnitude of each entry. *)
Definition gaussian_sample (np_random_normal : nat -> list Q -> list Q -> list Q)
    (net : Net) (i : nat) : list (list Q) :=
  imap (fun j param =>
          np_random_normal (i * length (net_parameters net) + j)%nat param
                           (map (fun x => (1 # 10) * Qabs x)%Q param))
       (net_parameters net).

(** * Properties of [main.py] *)

Section SchedulerFacts.
Context `{Collaborators}.

(** ** The flattened parameter vector *)

Lemma fold_left_snoc_map {A B} (f : A -> B) (l : list A) (acc : list B) :
  fold_left (fun acc x => acc ++ [f x]) l acc = acc ++ map f l.
Proof.
  revert acc. induction l as [|x l IH]; intros acc; simpl.
  - now rewrite app_nil_r.
  - rewrite IH, <- app_assoc. reflexivity.
Qed.

Lemma concat_map_nil {A B} (l : list A) :
  concat (map (fun _ : A => @nil B) l) = [].
Proof. induction l; simpl; auto. Qed.

Lemma length_concat_sum {A} (ls : list (list A)) :
  length (concat ls) = sum_list (map length ls).
Proof.
  induction ls as [|l ls IH]; simpl; [reflexivity|].
  rewrite length_app, IH. reflexivity.
Qed.

(** On a list of parameters that is not empty the flattening succeeds; the
    result has one entry per scalar and an empty autograd history. *)
Lemma params_to_1D_vector_spec (ps : list Tensor) :
  ps <> [] ->
  exists t, params_to_1D_vector ps = Ok t /\
            values t = concat (map values ps) /\
            history t = [].
Proof.
  intros Hne. unfold params_to_1D_vector.
  rewrite fold_left_snoc_map. simpl.
  destruct ps as [|p ps]; [congruence|].
  eexists. split; [reflexivity|]. split.
  - simpl. f_equal. rewrite map_map. reflexivity.
  - simpl. rewrite map_map. simpl. apply (concat_map_nil ps).
Qed.

Lemma parameters_nonempty (m : Model) : parameters m <> [].
Proof.
  intros E. pose proof (parameters_numel m) as Hm. rewrite E in Hm. simpl in Hm.
  symmetry in Hm. exact (architecture_nonempty Hm).
Qed.

Lemma flatten_model (m : Model) :
  exists t, params_to_1D_vector (parameters m) = Ok t /\
            numel t = parameter_count /\ history t = [].
Proof.
  destruct (params_to_1D_vector_spec (parameters m) (parameters_nonempty m))
    as (t & Ht & Hv & Hh).
  exists t. split; [exact Ht|]. split; [|exact Hh].
  unfold numel, parameter_count. rewrite Hv, length_concat_sum, map_map.
  rewrite <- (parameters_numel m). reflexivity.
Qed.

(** ** The log of a loop *)

Lemma bind_Ok {A B} (evs : list event) (a : A) (f : A -> logged B) :
  (Logged evs (Ok a)) ≫= f = Logged (evs ++ calls (f a)) (outcome (f a)).
Proof. reflexivity. Qed.

Lemma logged_eta {A} (m : logged A) : Logged (calls m) (outcome m) = m.
Proof. destruct m; reflexivity. Qed.

Lemma bind_lift_Ok {A B} (a : A) (f : A -> logged B) : lift (Ok a) ≫= f = f a.
Proof. unfold lift. rewrite bind_Ok. apply logged_eta. Qed.

Lemma for_each_app {A S} (body : S -> A -> logged S) (xs ys : list A) (s : S) :
  for_each body (xs ++ ys) s = for_each body xs s ≫= for_each body ys.
Proof.
  revert s. induction xs as [|x xs IH]; intros s; simpl.
  - unfold mbind, logged_bind. simpl. now rewrite logged_eta.
  - unfold mbind, logged_bind in *. destruct (body s x) as [evs [s'|e]]; simpl.
    + rewrite IH. destruct (for_each body xs s') as [evs' [s''|e']]; simpl.
      * now rewrite app_assoc.
      * reflexivity.
    + reflexivity.
Qed.

Lemma run_epochs_S cfg dtr dte loader n s :
  run_epochs cfg dtr dte loader (S n) s =
  run_epochs cfg dtr dte loader n s ≫= (fun s' => epoch_body cfg dtr dte loader s' n).
Proof.
  unfold run_epochs. rewrite seq_S, for_each_app. simpl.
  unfold mbind, logged_bind.
  destruct (for_each _ (seq 0 n) s) as [evs [s'|e]]; simpl; [|reflexivity].
  destruct (epoch_body cfg dtr dte loader s' n) as [evs' [s''|e']]; simpl;
    [rewrite app_nil_r|]; reflexivity.
Qed.

(** ** The mini-batch passes *)

Lemma set_model_twice (m m' : Model) (s : state) :
  set_model m' (set_model m s) = set_model m' s.
Proof. reflexivity. Qed.

Lemma standard_batch_eq cfg epoch s rl b :
  exists loss,
    standard_batch cfg epoch (s, rl) b =
    Logged [standard_call epoch s; OptimizerStep (StandardEpoch epoch)]
           (Ok (set_model (backward_and_step (model s) loss) s, rl ++ [item loss])).
Proof.
  destruct (flatten_model (model s)) as (t & Ht & _).
  unfold standard_batch, standard_call. rewrite Ht.
  destruct (surrogate_model_trained s); eexists; reflexivity.
Qed.

Lemma retrain_batch_eq cfg epoch s rl b :
  exists loss,
    retrain_batch cfg epoch (s, rl) b =
    Logged [retrain_call epoch s; OptimizerStep (RetrainEpoch epoch)]
           (Ok (set_model (backward_and_step (model s) loss) s, rl ++ [item loss])).
Proof.
  destruct (flatten_model (model s)) as (t & Ht & _).
  unfold retrain_batch, retrain_call. rewrite Ht.
  eexists; reflexivity.
Qed.

(** A pass over the loader only changes the model; it logs one loss call and
    one optimiser step per batch. *)
Lemma standard_pass cfg epoch s loader :
  forall m rl, exists m' rl',
    for_each (standard_batch cfg epoch) loader (set_model m s, rl) =
    Logged (flat_map (fun _ => [standard_call epoch s;
                                OptimizerStep (StandardEpoch epoch)]) loader)
           (Ok (set_model m' s, rl')).
Proof.
  induction loader as [|b loader IH]; intros m rl; cbn [for_each flat_map].
  - exists m, rl. reflexivity.
  - destruct (standard_batch_eq cfg epoch (set_model m s) rl b) as (loss & E).
    rewrite E, bind_Ok. rewrite set_model_twice.
    destruct (IH (backward_and_step (model (set_model m s)) loss) (rl ++ [item loss]))
      as (m' & rl' & E').
    rewrite E'. exists m', rl'. reflexivity.
Qed.

Lemma retrain_pass cfg epoch s loader :
  forall m rl, exists m' rl',
    for_each (retrain_batch cfg epoch) loader (set_model m s, rl) =
    Logged (flat_map (fun _ => [retrain_call epoch s;
                                OptimizerStep (RetrainEpoch epoch)]) loader)
           (Ok (set_model m' s, rl')).
Proof.
  induction loader as [|b loader IH]; intros m rl; cbn [for_each flat_map].
  - exists m, rl. reflexivity.
  - destruct (retrain_batch_eq cfg epoch (set_model m s) rl b) as (loss & E).
    rewrite E, bind_Ok. rewrite set_model_twice.
    destruct (IH (backward_and_step (model (set_model m s)) loss) (rl ++ [item loss]))
      as (m' & rl' & E').
    rewrite E'. exists m', rl'. reflexivity.
Qed.

(** ** One epoch *)

Lemma vstack_uniform (ts : list Tensor) (d : nat) :
  ts <> [] -> Forall (fun t => numel t = d) ts -> vstack ts = Ok ts.
Proof.
  intros Hne Hall. destruct ts as [|t ts]; [congruence|].
  unfold vstack.
  assert (Hd : numel t = d) by (inversion Hall; assumption).
  replace (forallb _ (t :: ts)) with true; [reflexivity|].
  symmetry. apply forallb_forall. intros u Hu.
  apply Nat.eqb_eq. rewrite Hd.
  rewrite List.Forall_forall in Hall. apply Hall, Hu.
Qed.

(** While the countdown is positive the epoch is a standard one: it leaves
    the surrogate and the flag alone, decrements the countdown and appends
    one observation, one APL and one mean loss. *)
Lemma epoch_body_standard cfg dtr dte loader s epoch :
  0 < input_batch_size_surrogate_training s ->
  exists m' t x,
    numel t = parameter_count /\
    epoch_body cfg dtr dte loader s epoch =
    Logged (flat_map (fun _ => [standard_call epoch s;
                                OptimizerStep (StandardEpoch epoch)]) loader)
           (Ok (mkState m' (surrogate_model s) (surrogate_model_trained s)
                        (input_batch_size_surrogate_training s - 1)
                        (input_data_surrogate_training s ++ [t])
                        (APLs s ++ [average_path_length dtr dte m'])
                        (training_loss s ++ [x])
                        (loss_surrogate_training s))).
Proof.
  intros Hpos. unfold epoch_body. cbn [set_model input_batch_size_surrogate_training].
  apply Z.ltb_lt in Hpos. rewrite Hpos.
  destruct (standard_pass cfg epoch s loader (train_mode (model s)) [])
    as (m' & rl' & E).
  rewrite E, bind_Ok.
  destruct (flatten_model m') as (t & Ht & Hn & _).
  cbn [set_model model]. rewrite Ht.
  exists m', t, (np_mean rl'). split; [exact Hn|].
  cbn. rewrite !app_nil_r. reflexivity.
Qed.

(** When the countdown has run out and the buffer holds observations the
    epoch retrains the surrogate: the surrogate is set, the flag raised, the
    buffers emptied, the countdown reset, one mean loss appended. *)
Lemma epoch_body_retrain cfg dtr dte loader s epoch :
  input_batch_size_surrogate_training s <= 0 ->
  input_data_surrogate_training s <> [] ->
  Forall (fun t => numel t = parameter_count) (input_data_surrogate_training s) ->
  exists m' sm sr_loss x,
    epoch_body cfg dtr dte loader s epoch =
    Logged (TrainSurrogate epoch (length (input_data_surrogate_training s)) ::
            flat_map (fun _ => [CallTreeRegularizer (RetrainEpoch epoch) true true;
                                OptimizerStep (RetrainEpoch epoch)]) loader)
           (Ok (mkState m' (Some sm) true (sb cfg) [] []
                        (training_loss s ++ [x])
                        (loss_surrogate_training s ++ [sr_loss]))).
Proof.
  intros Hle Hne Hall. unfold epoch_body.
  cbn [set_model input_batch_size_surrogate_training input_data_surrogate_training
       APLs model training_loss loss_surrogate_training].
  assert (Hlt : (0 <? input_batch_size_surrogate_training s) = false)
    by (apply Z.ltb_ge; exact Hle).
  rewrite Hlt, (vstack_uniform _ _ Hne Hall).
  unfold lift at 1. rewrite bind_Ok.
  destruct (train_surrogate_model _ _ _ _ _) as [sm sr_loss].
  unfold tell at 1. rewrite bind_Ok.
  set (s1 := mkState _ (Some sm) true _ _ _ _ _).
  destruct (retrain_pass cfg epoch s1 loader (train_mode (model s)) [])
    as (m' & rl' & E).
  change (set_model (train_mode (model s)) s1) with s1 in E.
  exists m', sm, sr_loss, (np_mean rl').
  rewrite E. cbn. rewrite !app_nil_r. reflexivity.
Qed.

(** When the countdown has run out on an empty buffer the stacking raises
    before anything else happens. *)
Lemma epoch_body_retrain_empty cfg dtr dte loader s epoch :
  input_batch_size_surrogate_training s <= 0 ->
  input_data_surrogate_training s = [] ->
  epoch_body cfg dtr dte loader s epoch = Logged [] (Raise RuntimeError).
Proof.
  intros Hle Hnil. unfold epoch_body.
  cbn [set_model input_batch_size_surrogate_training input_data_surrogate_training].
  assert (Hlt : (0 <? input_batch_size_surrogate_training s) = false)
    by (apply Z.ltb_ge; exact Hle).
  rewrite Hlt, Hnil. reflexivity.
Qed.

(** ** The macro-cycle *)

Lemma mod_succ_lt (n c : nat) :
  (n mod c < c - 1)%nat -> (S n mod c = S (n mod c))%nat.
Proof.
  intros Hlt. symmetry.
  apply (Nat.mod_unique (S n) c (n / c)); [lia|].
  pose proof (Nat.div_mod_eq n c). lia.
Qed.

Lemma mod_succ_wrap (n c : nat) :
  c <> 0%nat -> (n mod c = c - 1)%nat -> (S n mod c = 0)%nat.
Proof.
  intros Hc Heq. symmetry.
  apply (Nat.mod_unique (S n) c (S (n / c))); [lia|].
  pose proof (Nat.div_mod_eq n c). nia.
Qed.

Lemma retrain_epochs_app (evs evs' : list event) :
  retrain_epochs (evs ++ evs') = retrain_epochs evs ++ retrain_epochs evs'.
Proof. apply omap_app. Qed.

Lemma retrain_epochs_pass {A} (ev : event) (ph : phase) (l : list A) :
  retrain_epochs [ev] = [] ->
  retrain_epochs (flat_map (fun _ => [ev; OptimizerStep ph]) l) = [].
Proof.
  intros Hev. induction l as [|x l IH]; [reflexivity|].
  cbn [flat_map]. rewrite retrain_epochs_app, IH.
  destruct ev; try discriminate; reflexivity.
Qed.

Lemma loss_selection_pass {A} (ev : event) (ph : phase) (l : list A) :
  loss_selection_ok ev = true ->
  Forall (fun ev => loss_selection_ok ev = true)
         (flat_map (fun _ => [ev; OptimizerStep ph]) l).
Proof.
  intros Hev. induction l as [|x l IH]; cbn [flat_map]; [constructor|].
  apply Forall_app. split; [|exact IH].
  repeat constructor. exact Hev.
Qed.

(** Projections of a state or of a logged computation written out in full. *)
Ltac state_simpl :=
  cbn [input_data_surrogate_training input_batch_size_surrogate_training APLs
       training_loss surrogate_model surrogate_model_trained
       loss_surrogate_training model calls outcome].

Lemma cycle_invariant_initial cfg model0 :
  cycle_invariant cfg 0 [] (initial_state cfg model0).
Proof.
  constructor; cbn; try reflexivity; try constructor.
  - rewrite Nat.sub_diag. reflexivity.
  - lia.
Qed.

(** With an interval of at least one, no epoch raises, and the state after
    [n] epochs is the one the macro-cycle of [N + 1] epochs predicts. *)
Lemma run_epochs_cycle cfg dtr dte loader model0 :
  1 <= sb cfg ->
  forall n, exists evs s,
    run_epochs cfg dtr dte loader n (initial_state cfg model0) = Logged evs (Ok s) /\
    cycle_invariant cfg n evs s.
Proof.
  intros HN. induction n as [|n (evs & s & Erun & Inv)].
  - exists [], (initial_state cfg model0). split; [reflexivity|].
    apply cycle_invariant_initial.
  - rewrite run_epochs_S, Erun, bind_Ok.
    destruct Inv as [Hbuf Hcd Hapl Hnum Htl Hflag Hsur Hret Hloss].
    set (N := Z.to_nat (sb cfg)) in *.
    assert (HNpos : (1 <= N)%nat) by (subst N; lia).
    assert (HNZ : Z.of_nat N = sb cfg) by (subst N; lia).
    pose proof (Nat.mod_upper_bound n (S N) ltac:(lia)) as Hub.
    destruct (Z_lt_le_dec 0 (input_batch_size_surrogate_training s)) as [Hpos|Hle].
    + (* a standard epoch *)
      destruct (epoch_body_standard cfg dtr dte loader s n Hpos)
        as (m' & t & x & Ht & E).
      rewrite E. eexists _, _. split; [reflexivity|].
      assert (Hlt : (n mod S N < S N - 1)%nat) by lia.
      constructor; state_simpl; fold N.
      * rewrite length_app, Hbuf. cbn [length]. rewrite (mod_succ_lt n (S N) Hlt). lia.
      * rewrite length_app. cbn [length]. lia.
      * rewrite !length_app. cbn [length]. lia.
      * apply Forall_app. split; [exact Hnum|]. repeat constructor. exact Ht.
      * rewrite length_app. cbn [length]. lia.
      * rewrite Hflag. apply bool_decide_ext.
        assert (n <> N) by (intros ->; rewrite Nat.mod_small in Hlt; lia).
        lia.
      * exact Hsur.
      * rewrite retrain_epochs_app, Hret, seq_S, filter_app.
        rewrite retrain_epochs_pass
          by (unfold standard_call; destruct (surrogate_model_trained s); reflexivity).
        f_equal. cbn [Nat.add]. rewrite filter_cons_False; [reflexivity|].
        rewrite (mod_succ_lt n (S N) Hlt). lia.
      * apply Forall_app. split; [exact Hloss|].
        apply loss_selection_pass. unfold standard_call.
        destruct (surrogate_model_trained s) eqn:Ef; cbn; [|reflexivity].
        rewrite Hsur. reflexivity.
    + (* a surrogate-retrain epoch *)
      assert (Hfull : (n mod S N = S N - 1)%nat) by lia.
      assert (Hne : input_data_surrogate_training s <> []).
      { intros Enil. rewrite Enil in Hbuf. cbn [length] in Hbuf. lia. }
      destruct (epoch_body_retrain cfg dtr dte loader s n Hle Hne Hnum)
        as (m' & sm & sr_loss & x & E).
      rewrite E. eexists _, _. split; [reflexivity|].
      constructor; state_simpl; fold N.
      * rewrite (mod_succ_wrap n (S N)); [reflexivity|lia|exact Hfull].
      * cbn [length]. lia.
      * reflexivity.
      * constructor.
      * rewrite length_app. cbn [length]. lia.
      * symmetry. apply bool_decide_eq_true.
        pose proof (Nat.Div0.mod_le n (S N)). lia.
      * reflexivity.
      * rewrite (retrain_epochs_app evs (_ :: _)), Hret, seq_S, filter_app.
        f_equal. cbn [Nat.add]. rewrite filter_cons_True.
        -- cbn. rewrite retrain_epochs_pass by reflexivity. reflexivity.
        -- apply (mod_succ_wrap n (S N)); [lia|exact Hfull].
      * apply Forall_app. split; [exact Hloss|].
        constructor; [reflexivity|].
        apply loss_selection_pass. reflexivity.
Qed.

(** ** The observation buffer *)

Lemma last_multiple (c n : nat) :
  c <> 0%nat ->
  List.last (filter (fun k => (k mod c)%nat = 0%nat) (seq 1 n)) 0%nat = (n - n mod c)%nat.
Proof.
  intros Hc. induction n as [|n IH].
  - reflexivity.
  - rewrite seq_S, filter_app. cbn [Nat.add].
    pose proof (Nat.mod_upper_bound n c Hc) as Hub.
    destruct (decide (n mod c = c - 1)%nat) as [Hfull|Hnot].
    + pose proof (mod_succ_wrap n c Hc Hfull) as Hw.
      rewrite filter_cons_True by exact Hw.
      rewrite filter_nil, last_last, Hw. lia.
    + assert (Hlt : (n mod c < c - 1)%nat) by lia.
      pose proof (mod_succ_lt n c Hlt) as Hs.
      rewrite filter_cons_False by lia.
      rewrite filter_nil, app_nil_r, IH, Hs.
      pose proof (Nat.Div0.mod_le n c). lia.
Qed.

(** C1 (amended): for every interval [N >= 1], after any number [n] of
    completed epochs the loop has not raised, the observation buffer holds
    one parameter vector and one APL per epoch completed since the last
    surrogate-retrain epoch (no reduction modulo [N]), which is [n mod (N+1)];
    its length is at most [N] (it reaches [N] just before the flush); and
    right after a retrain epoch both buffers are empty. *)
Theorem C1_buffer_counts_epochs_since_retrain cfg dtr dte loader model0 :
  1 <= sb cfg ->
  forall n, exists evs s,
    run_epochs cfg dtr dte loader n (initial_state cfg model0) = Logged evs (Ok s) /\
    length (input_data_surrogate_training s) = epochs_since_last_retrain n evs /\
    length (input_data_surrogate_training s) = (n mod (Z.to_nat (sb cfg) + 1))%nat /\
    length (APLs s) = length (input_data_surrogate_training s) /\
    Z.of_nat (length (input_data_surrogate_training s)) <= sb cfg /\
    (In n (retrain_epochs evs) ->
     input_data_surrogate_training s = [] /\ APLs s = []).
Proof.
  intros HN n.
  destruct (run_epochs_cycle cfg dtr dte loader model0 HN n) as (evs & s & E & Inv).
  exists evs, s. split; [exact E|].
  destruct Inv as [Hbuf Hcd Hapl Hnum Htl Hflag Hsur Hret Hloss].
  set (N := Z.to_nat (sb cfg)) in *.
  pose proof (Nat.mod_upper_bound n (S N) ltac:(lia)) as Hub.
  pose proof (Nat.Div0.mod_le n (S N)) as Hle.
  assert (Hzero : In n (retrain_epochs evs) ->
                  length (input_data_surrogate_training s) = 0%nat).
  { intros Hin. rewrite Hret in Hin.
    apply list_elem_of_In, list_elem_of_filter in Hin.
    destruct Hin as [Hin _]. now rewrite Hbuf. }
  split; [|split; [|split; [|split]]].
  - unfold epochs_since_last_retrain. rewrite Hret, last_multiple by lia. lia.
  - rewrite Nat.add_1_r. exact Hbuf.
  - exact Hapl.
  - subst N. lia.
  - intros Hin. specialize (Hzero Hin). split.
    + now apply length_zero_iff_nil.
    + rewrite <- Hapl in Hzero. now apply length_zero_iff_nil.
Qed.

(** C2 (amended): with interval 5 and 12 epochs the loop completes, exactly
    two surrogate retrains occur, in the 6th and the 12th epoch (the macro-cycle
    has 5 + 1 epochs), and at the end of epoch 12 the observation buffer and
    the APL buffer are empty. *)
Theorem C2_interval_5_epochs_12 (batch_size : Z) (rs' lr' epsilon' lr_sr' : Float)
    dtr dte loader model0 :
  let cfg := mkConfig 12 batch_size 5 rs' lr' epsilon' lr_sr' in
  exists evs s,
    epoch_loop cfg dtr dte loader (initial_state cfg model0) = Logged evs (Ok s) /\
    retrain_epochs evs = [6; 12]%nat /\
    input_data_surrogate_training s = [] /\
    APLs s = [].
Proof.
  intros cfg.
  destruct (run_epochs_cycle cfg dtr dte loader model0 ltac:(cbn; lia) 12)
    as (evs & s & E & Inv).
  exists evs, s. split; [exact E|].
  destruct Inv as [Hbuf Hcd Hapl Hnum Htl Hflag Hsur Hret Hloss].
  change (Z.to_nat (sb cfg)) with 5%nat in *.
  change (12 mod 6)%nat with 0%nat in Hbuf.
  split; [rewrite Hret; reflexivity|].
  rewrite Hbuf in Hapl.
  split; now apply length_zero_iff_nil.
Qed.

(** ** The training-loss series *)

(** From a state of the macro-cycle an epoch never raises and appends
    exactly one entry to [training_loss], whichever branch it takes. *)
Lemma epoch_appends_one cfg dtr dte loader n evs s :
  1 <= sb cfg ->
  cycle_invariant cfg n evs s ->
  exists evs' s' x,
    epoch_body cfg dtr dte loader s n = Logged evs' (Ok s') /\
    training_loss s' = training_loss s ++ [x].
Proof.
  intros HN [Hbuf Hcd Hapl Hnum Htl Hflag Hsur Hret Hloss].
  destruct (Z_lt_le_dec 0 (input_batch_size_surrogate_training s)) as [Hpos|Hle].
  - destruct (epoch_body_standard cfg dtr dte loader s n Hpos)
      as (m' & t & x & _ & E).
    rewrite E. eexists _, _, x. split; reflexivity.
  - assert (Hne : input_data_surrogate_training s <> []).
    { intros Enil. rewrite Enil in Hcd. cbn [length] in Hcd. lia. }
    destruct (epoch_body_retrain cfg dtr dte loader s n Hle Hne Hnum)
      as (m' & sm & sr_loss & x & E).
    rewrite E. eexists _, _, x. split; reflexivity.
Qed.

Lemma mapM_lookup_ok {A} (l : list A) (idx : list nat) :
  Forall (fun i => (i < length l)%nat) idx ->
  is_ok (mapM (fun i => match nth_error l i with
                        | Some x => Ok (i, x)
                        | None => Raise IndexError
                        end) idx) = true.
Proof.
  induction 1 as [|i idx Hi _ IH]; [reflexivity|].
  cbn [mapM]. apply nth_error_Some in Hi.
  destruct (nth_error l i) as [x|]; [|congruence].
  unfold mbind, result_bind at 1.
  destruct (mapM _ idx); [reflexivity|discriminate].
Qed.

(** The scalar log reads [training_loss[i]] for [i < num_epochs] only. *)
Lemma log_training_loss_ok (num_epochs : Z) (tl : list Float) :
  length tl = Z.to_nat num_epochs ->
  is_ok (log_training_loss num_epochs tl) = true.
Proof.
  intros Hlen. unfold log_training_loss. apply mapM_lookup_ok.
  apply List.Forall_forall. intros i Hi. apply in_seq in Hi. lia.
Qed.

(** C9: when the interval is at least 1 the epoch loop completes; every
    iteration, standard or retrain, appends exactly one mean loss to
    [training_loss]; after the loop the series has one entry per iteration of
    [range(num_epochs)], that is [num_epochs] entries for a count that is not
    negative; and the scalar-logging loop over [range(num_epochs)] raises no
    [IndexError]. *)
Theorem C9_one_training_loss_per_epoch cfg dtr dte loader model0 :
  1 <= sb cfg ->
  exists evs s,
    epoch_loop cfg dtr dte loader (initial_state cfg model0) = Logged evs (Ok s) /\
    length (training_loss s) = Z.to_nat (ep cfg) /\
    (0 <= ep cfg -> Z.of_nat (length (training_loss s)) = ep cfg) /\
    is_ok (log_training_loss (ep cfg) (training_loss s)) = true /\
    (forall n, (n < Z.to_nat (ep cfg))%nat ->
       exists s1 s2 x,
         state_after cfg model0 dtr dte loader n = Ok s1 /\
         state_after cfg model0 dtr dte loader (S n) = Ok s2 /\
         training_loss s2 = training_loss s1 ++ [x]).
Proof.
  intros HN.
  destruct (run_epochs_cycle cfg dtr dte loader model0 HN (Z.to_nat (ep cfg)))
    as (evs & s & E & Inv).
  exists evs, s. split; [exact E|].
  pose proof (inv_training_loss _ _ _ _ Inv) as Hlen.
  split; [exact Hlen|]. split; [lia|]. split; [now apply log_training_loss_ok|].
  intros n _.
  destruct (run_epochs_cycle cfg dtr dte loader model0 HN n)
    as (evs1 & s1 & E1 & Inv1).
  destruct (epoch_appends_one cfg dtr dte loader n evs1 s1 HN Inv1)
    as (evs' & s2 & x & E2 & Happ).
  exists s1, s2, x. unfold state_after.
  rewrite run_epochs_S, E1, bind_Ok, E2. auto.
Qed.

(** ** The surrogate-presence flag *)







(** With an interval that is not positive the first epoch already raises:
    the countdown is exhausted and there is nothing to stack. *)
Lemma run_raises_without_interval cfg dtr dte loader model0 n :
  sb cfg <= 0 ->
  run_epochs cfg dtr dte loader (S n) (initial_state cfg model0) =
  Logged [] (Raise RuntimeError).
Proof.
  intros Hsb. unfold run_epochs. cbn [seq for_each].
  rewrite epoch_body_retrain_empty by (cbn; auto).
  reflexivity.
Qed.



(** ** The whole of [main] *)

Lemma evaluation_batch_eq cfg s losses b :
  exists loss,
    evaluation_batch cfg s losses b =
    Logged [evaluation_call s] (Ok (losses ++ [item loss])).
Proof.
  destruct (flatten_model (model s)) as (t & Ht & _).
  unfold evaluation_batch, evaluation_call. rewrite Ht.
  eexists; reflexivity.
Qed.

Lemma evaluation_pass cfg s (loader : list (list Sample)) :
  forall losses, exists losses',
    for_each (evaluation_batch cfg s) loader losses =
    Logged (map (fun _ => evaluation_call s) loader) (Ok losses').
Proof.
  induction loader as [|b loader IH]; intros losses; cbn [for_each map].
  - exists losses. reflexivity.
  - destruct (evaluation_batch_eq cfg s losses b) as (loss & E).
    rewrite E, bind_Ok.
    destruct (IH (losses ++ [item loss])) as (losses' & E').
    rewrite E'. exists losses'. reflexivity.
Qed.

Lemma training_steps_app (evs evs' : list event) :
  training_steps (evs ++ evs') = (training_steps evs + training_steps evs')%nat.
Proof. unfold training_steps. now rewrite filter_app, length_app. Qed.

Lemma training_steps_evaluation {A} (ev : event) (l : list A) :
  is_optimizer_step ev = false ->
  training_steps (map (fun _ => ev) l) = 0%nat.
Proof.
  intros Hev. unfold training_steps. induction l as [|x l IH]; [reflexivity|].
  cbn [map]. rewrite filter_cons_False by congruence. exact IH.
Qed.

Lemma batches_from_nil {A} (n : nat) (cur l : list A) :
  batches_from n cur l = [] -> cur = [] /\ l = [].
Proof.
  revert cur. induction l as [|x l IH]; intros cur; cbn [batches_from].
  - destruct cur; [auto|discriminate].
  - destruct (Nat.eqb (S (length cur)) n); [discriminate|].
    intros E. apply IH in E. destruct E; discriminate.
Qed.

(** Once the epoch loop has completed with one loss entry per epoch, [main]
    runs to the end of the test phase: the calls of the loop are followed by
    one tree-regularised loss call per test-phase batch. *)
Lemma main_after_loop cfg model0 dtr dte evs s :
  0 < batch cfg ->
  epoch_loop cfg dtr dte (batches_from (Z.to_nat (batch cfg)) [] dtr)
             (initial_state cfg model0) = Logged evs (Ok s) ->
  length (training_loss s) = Z.to_nat (ep cfg) ->
  exists losses1 losses2,
    main cfg model0 dtr dte =
    Logged (evs ++
            map (fun _ => evaluation_call s) (batches_from (Z.to_nat (batch cfg)) [] dtr) ++
            map (fun _ => evaluation_call s) (batches_from (Z.to_nat (batch cfg)) [] dte))
           (Ok (set_model (eval_mode (model s)) s, losses1, losses2)).
Proof.
  intros Hb E Hlen.
  set (loader := batches_from (Z.to_nat (batch cfg)) [] dtr) in *.
  set (loader' := batches_from (Z.to_nat (batch cfg)) [] dte).
  pose proof (log_training_loss_ok (ep cfg) (training_loss s) Hlen) as Hlog.
  set (s' := set_model (eval_mode (model s)) s).
  destruct (evaluation_pass cfg s' loader []) as (l1 & E1).
  destruct (evaluation_pass cfg s' loader' []) as (l2 & E2).
  exists l1, l2.
  unfold main, DataLoader.
  assert (Hbs : (batch cfg <=? 0) = false) by (apply Z.leb_gt; exact Hb).
  rewrite Hbs, !bind_lift_Ok.
  fold loader loader'. rewrite E, bind_Ok.
  destruct (log_training_loss (ep cfg) (training_loss s)) as [scalars|e];
    [|discriminate].
  rewrite bind_lift_Ok. fold s'. rewrite E1, bind_Ok, E2.
  cbn. rewrite !app_nil_r. reflexivity.
Qed.

Lemma main_runs cfg model0 dtr dte :
  0 < batch cfg -> 1 <= sb cfg ->
  exists evs s losses1 losses2,
    cycle_invariant cfg (Z.to_nat (ep cfg)) evs s /\
    main cfg model0 dtr dte =
    Logged (evs ++
            map (fun _ => evaluation_call s) (batches_from (Z.to_nat (batch cfg)) [] dtr) ++
            map (fun _ => evaluation_call s) (batches_from (Z.to_nat (batch cfg)) [] dte))
           (Ok (set_model (eval_mode (model s)) s, losses1, losses2)).
Proof.
  intros Hb HN.
  destruct (run_epochs_cycle cfg dtr dte (batches_from (Z.to_nat (batch cfg)) [] dtr)
              model0 HN (Z.to_nat (ep cfg))) as (evs & s & E & Inv).
  destruct (main_after_loop cfg model0 dtr dte evs s Hb E
              (inv_training_loss _ _ _ _ Inv)) as (l1 & l2 & Emain).
  exists evs, s, l1, l2. split; [exact Inv|exact Emain].
Qed.

(** Inside the epoch loop the selection rule is respected: the
    tree-regularised loss is called only once the flag is true, with a
    surrogate that is present, and from then on every standard-epoch batch
    uses it. *)
Lemma epoch_loop_selects_loss cfg dtr dte loader model0 :
  1 <= sb cfg ->
  exists evs s,
    epoch_loop cfg dtr dte loader (initial_state cfg model0) = Logged evs (Ok s) /\
    Forall (fun ev => loss_selection_ok ev = true) evs.
Proof.
  intros HN.
  destruct (run_epochs_cycle cfg dtr dte loader model0 HN (Z.to_nat (ep cfg)))
    as (evs & s & E & Inv).
  exists evs, s. split; [exact E|]. exact (inv_losses _ _ _ _ Inv).
Qed.

(** C3 (what the code does): when the run has fewer epochs than one
    macro-cycle needs to reach its retrain ([ep <= sb]), [main] completes the
    epoch loop with the flag still false and no surrogate, and the test phase
    then calls the tree-regularised loss with [surrogate_model = None]: the
    log of [main] breaks the selection rule. *)
Theorem C3_test_phase_calls_tree_loss_without_surrogate cfg model0 dtr dte :
  0 < batch cfg -> 1 <= sb cfg -> ep cfg <= sb cfg -> dtr <> [] ->
  In (CallTreeRegularizer Evaluation false false) (calls (main cfg model0 dtr dte)) /\
  ~ Forall (fun ev => loss_selection_ok ev = true) (calls (main cfg model0 dtr dte)).
Proof.
  intros Hb HN Hep Hdata.
  destruct (main_runs cfg model0 dtr dte Hb HN)
    as (evs & s & l1 & l2 & Inv & Emain).
  assert (Hflag : surrogate_model_trained s = false).
  { rewrite (inv_flag _ _ _ _ Inv). apply bool_decide_eq_false_2. lia. }
  assert (Hsur : bool_decide (is_Some (surrogate_model s)) = false).
  { now rewrite (inv_surrogate _ _ _ _ Inv). }
  assert (Hin : In (CallTreeRegularizer Evaluation false false)
                   (calls (main cfg model0 dtr dte))).
  { rewrite Emain. cbn [calls]. apply in_or_app. right. apply in_or_app. left.
    destruct (batches_from (Z.to_nat (batch cfg)) [] dtr) as [|b bs] eqn:Eb.
    - apply batches_from_nil in Eb. destruct Eb; contradiction.
    - left. unfold evaluation_call. now rewrite Hflag, Hsur. }
  split; [exact Hin|].
  intros Hall. rewrite List.Forall_forall in Hall.
  specialize (Hall _ Hin). discriminate.
Qed.

(** ** Invalid configurations *)

(** C7 (amended): [main] validates nothing and never raises
    [ConfigurationError].  For an epoch count, a batch size or an interval
    that is not positive no optimiser step executes all the same: a batch
    size that is not positive is refused by the [DataLoader] constructor
    ([ValueError]); otherwise, with an epoch count that is not positive the
    body of the epoch loop never runs and [main] goes on to the test phase;
    otherwise, with an interval that is not positive the first epoch raises
    [RuntimeError] when it stacks the empty buffer. *)
Theorem C7_no_step_for_nonpositive_configuration cfg model0 dtr dte :
  ep cfg <= 0 \/ batch cfg <= 0 \/ sb cfg <= 0 ->
  training_steps (calls (main cfg model0 dtr dte)) = 0%nat /\
  ~ fails_fast (main cfg model0 dtr dte) /\
  (batch cfg <= 0 -> main cfg model0 dtr dte = Logged [] (Raise ValueError)) /\
  (0 < batch cfg -> ep cfg <= 0 ->
   forall loader,
     epoch_loop cfg dtr dte loader (initial_state cfg model0) =
     Logged [] (Ok (initial_state cfg model0))) /\
  (0 < batch cfg -> 0 < ep cfg -> sb cfg <= 0 ->
   main cfg model0 dtr dte = Logged [] (Raise RuntimeError)).
Proof.
  intros Hbad.
  assert (Hvalue : batch cfg <= 0 ->
                   main cfg model0 dtr dte = Logged [] (Raise ValueError)).
  { intros Hb. unfold main, DataLoader.
    assert (Hbs : (batch cfg <=? 0) = true) by (apply Z.leb_le; exact Hb).
    rewrite Hbs. reflexivity. }
  assert (Hzero : 0 < batch cfg -> ep cfg <= 0 ->
                  exists s l1 l2 evs,
                    main cfg model0 dtr dte = Logged evs (Ok (s, l1, l2)) /\
                    training_steps evs = 0%nat).
  { intros Hb Hep.
    destruct (main_after_loop cfg model0 dtr dte [] (initial_state cfg model0) Hb)
      as (l1 & l2 & E).
    - unfold epoch_loop, run_epochs.
      replace (Z.to_nat (ep cfg)) with 0%nat by lia. reflexivity.
    - cbn. lia.
    - rewrite E. eexists _, l1, l2, _. split; [reflexivity|].
      cbn [app]. rewrite training_steps_app.
      rewrite !training_steps_evaluation by reflexivity. reflexivity. }
  assert (Hstack : 0 < batch cfg -> 0 < ep cfg -> sb cfg <= 0 ->
                   main cfg model0 dtr dte = Logged [] (Raise RuntimeError)).
  { intros Hb Hep Hsb. unfold main, DataLoader.
    assert (Hbs : (batch cfg <=? 0) = false) by (apply Z.leb_gt; exact Hb).
    rewrite Hbs, !bind_lift_Ok. unfold epoch_loop.
    destruct (Z.to_nat (ep cfg)) as [|n] eqn:En; [lia|].
    rewrite run_raises_without_interval by exact Hsb. reflexivity. }
  assert (Hcases : batch cfg <= 0 \/
                   (0 < batch cfg /\ ep cfg <= 0) \/
                   (0 < batch cfg /\ 0 < ep cfg /\ sb cfg <= 0)) by lia.
  split; [|split; [|split; [exact Hvalue|split; [|exact Hstack]]]].
  - destruct Hcases as [Hb|[[Hb Hep]|(Hb & Hep & Hsb)]].
    + now rewrite Hvalue.
    + destruct (Hzero Hb Hep) as (s & l1 & l2 & evs & -> & Hs). exact Hs.
    + now rewrite Hstack.
  - intros [Hout _].
    destruct Hcases as [Hb|[[Hb Hep]|(Hb & Hep & Hsb)]].
    + rewrite Hvalue in Hout by exact Hb. discriminate.
    + destruct (Hzero Hb Hep) as (s & l1 & l2 & evs & E & _).
      rewrite E in Hout. discriminate.
    + rewrite Hstack in Hout by assumption. discriminate.
  - intros Hb Hep loader. unfold epoch_loop, run_epochs.
    replace (Z.to_nat (ep cfg)) with 0%nat by lia. reflexivity.
Qed.

End SchedulerFacts.

(** ** Gradient flow through the flattened parameter vector *)

(** Had the flattening kept the parameters themselves ([torch.flatten(param)]
    instead of [torch.flatten(param.data)]), the vector would carry the
    history of every parameter. *)
Lemma attached_flattening_keeps_history (ps : list Tensor) (t : Tensor) :
  cat (map flatten ps) = Ok t -> history t = leaves ps.
Proof.
  destruct ps as [|p ps]; [discriminate|].
  cbn [map cat]. intros [= <-]. cbn [history].
  unfold leaves. f_equal. cbn [map]. f_equal.
  rewrite map_map. reflexivity.
Qed.

(** C6 (what the code does): [params_to_1D_vector] flattens [param.data], so
    the vector it returns is cut off from the autograd graph.  The history of
    the regularisation term built on it holds the surrogate's own leaves
    only, and a weight of the primary model that is not one of them receives
    no gradient from the term. *)
Theorem C6_regularization_term_is_detached (rs' : Q) (sm : SurrogateNet)
    (ps : list Tensor) :
  ps <> [] ->
  exists parameter_vector,
    params_to_1D_vector ps = Ok parameter_vector /\
    history parameter_vector = [] /\
    history (regularization_term rs' sm parameter_vector) =
    leaves (surrogate_parameters sm) /\
    (forall leaf, In leaf (leaves ps) ->
                  ~ In leaf (leaves (surrogate_parameters sm)) ->
                  ~ receives_gradient (regularization_term rs' sm parameter_vector) leaf).
Proof.
  intros Hne.
  destruct (params_to_1D_vector_spec ps Hne) as (pv & E & _ & Hh).
  exists pv. split; [exact E|]. split; [exact Hh|].
  assert (Hterm : history (regularization_term rs' sm pv) =
                  leaves (surrogate_parameters sm)).
  { cbn. rewrite Hh. reflexivity. }
  split; [exact Hterm|].
  intros leaf _ Hnot. unfold receives_gradient. rewrite Hterm. exact Hnot.
Qed.

(** * Properties of [utils.py] *)

(** ** [post_pruning] *)

Lemma Qmax'_cases (a b : Q) :
  (Qmax' a b = a \/ Qmax' a b = b) /\ (a <= Qmax' a b)%Q /\ (b <= Qmax' a b)%Q.
Proof.
  unfold Qmax'. destruct (Qle_bool a b) eqn:E.
  - apply Qle_bool_iff in E. split; [auto|]. split; [exact E|apply Qle_refl].
  - assert (b <= a)%Q.
    { apply Qlt_le_weak, Qnot_le_lt. intros Hle. apply Qle_bool_iff in Hle. congruence. }
    split; [auto|]. split; [apply Qle_refl|assumption].
Qed.

Lemma Qmin'_cases (a b : Q) :
  (Qmin' a b = a \/ Qmin' a b = b) /\ (Qmin' a b <= a)%Q /\ (Qmin' a b <= b)%Q.
Proof.
  unfold Qmin'. destruct (Qle_bool a b) eqn:E.
  - apply Qle_bool_iff in E. split; [auto|]. split; [apply Qle_refl|exact E].
  - assert (b <= a)%Q.
    { apply Qlt_le_weak, Qnot_le_lt. intros Hle. apply Qle_bool_iff in Hle. congruence. }
    split; [auto|]. split; [assumption|apply Qle_refl].
Qed.

(** The running maximum is one of the elements and bounds them all. *)
Lemma fold_max_spec (l : list Q) (x : Q) :
  In (fold_left Qmax' l x) (x :: l) /\
  Forall (fun e => (e <= fold_left Qmax' l x)%Q) (x :: l).
Proof.
  revert x. induction l as [|y l IH]; intros x; cbn [fold_left].
  - split; [left; reflexivity|]. repeat constructor. apply Qle_refl.
  - destruct (IH (Qmax' x y)) as [Hin Hall].
    destruct (Qmax'_cases x y) as (Hc & Hx & Hy).
    inversion Hall as [|? ? Hm Hrest]; subst.
    split.
    + destruct Hin as [Hin|Hin]; [|right; right; exact Hin].
      rewrite <- Hin. destruct Hc as [-> | ->]; [left|right; left]; reflexivity.
    + constructor; [eapply Qle_trans; eassumption|].
      constructor; [eapply Qle_trans; eassumption|exact Hrest].
Qed.

Lemma fold_min_spec (l : list Q) (x : Q) :
  In (fold_left Qmin' l x) (x :: l) /\
  Forall (fun e => (fold_left Qmin' l x <= e)%Q) (x :: l).
Proof.
  revert x. induction l as [|y l IH]; intros x; cbn [fold_left].
  - split; [left; reflexivity|]. repeat constructor. apply Qle_refl.
  - destruct (IH (Qmin' x y)) as [Hin Hall].
    destruct (Qmin'_cases x y) as (Hc & Hx & Hy).
    inversion Hall as [|? ? Hm Hrest]; subst.
    split.
    + destruct Hin as [Hin|Hin]; [|right; right; exact Hin].
      rewrite <- Hin. destruct Hc as [-> | ->]; [left|right; left]; reflexivity.
    + constructor; [eapply Qle_trans; eassumption|].
      constructor; [eapply Qle_trans; eassumption|exact Hrest].
Qed.

Lemma np_max_spec (l : list Q) :
  l <> [] ->
  exists m, np_max l = Ok m /\ In m l /\ Forall (fun e => (e <= m)%Q) l.
Proof.
  destruct l as [|x l]; [congruence|]. intros _.
  exists (fold_left Qmax' l x). split; [reflexivity|]. apply fold_max_spec.
Qed.

Lemma np_min_spec (l : list Q) :
  l <> [] ->
  exists m, np_min l = Ok m /\ In m l /\ Forall (fun e => (m <= e)%Q) l.
Proof.
  destruct l as [|x l]; [congruence|]. intros _.
  exists (fold_left Qmin' l x). split; [reflexivity|]. apply fold_min_spec.
Qed.

(** Masked selection keeps exactly the entries whose mask bit is set. *)
Lemma select_spec {A} (a : list A) (mask : list bool) (x : A) :
  In x (select a mask) <->
  exists i, a !! i = Some x /\ mask !! i = Some true.
Proof.
  revert mask. induction a as [|y a IH]; intros mask.
  - cbn. split; [tauto|]. intros (i & Hi & _). destruct i; discriminate.
  - destruct mask as [|b mask].
    + cbn. split; [tauto|]. intros (i & _ & Hi). destruct i; discriminate.
    + cbn [select]. split.
      * destruct b.
        -- intros [->|Hin]; [exists 0%nat; auto|].
           apply IH in Hin. destruct Hin as (i & ? & ?). exists (S i). auto.
        -- intros Hin. apply IH in Hin. destruct Hin as (i & ? & ?).
           exists (S i). auto.
      * intros (i & Ha & Hm). destruct i as [|i]; cbn in Ha, Hm.
        -- injection Ha as ->. injection Hm as ->. left. reflexivity.
        -- assert (In x (select a mask)) by (apply IH; eauto).
           destruct b; [right|]; assumption.
Qed.

Lemma removelast_nil_iff {A} (l : list A) :
  removelast l = [] <-> (length l <= 1)%nat.
Proof.
  destruct l as [|x [|y l]]; cbn; split; intros; try reflexivity; try lia; try discriminate.
Qed.

Lemma In_removelast {A} (l : list A) (x : A) : In x (removelast l) -> In x l.
Proof.
  induction l as [|y l IH]; [tauto|].
  destruct l as [|z l]; [cbn; tauto|].
  change (removelast (y :: z :: l)) with (y :: removelast (z :: l)).
  intros [->|Hin]; [left; reflexivity|right; apply IH, Hin].
Qed.

(** A loop of fallible calls returns when every call does. *)
Lemma mapM_Ok {A B} (f : A -> result B) (l : list A) (ks : list B) :
  Forall2 (fun a k => f a = Ok k) l ks -> mapM f l = Ok ks.
Proof.
  induction 1 as [|a k l ks Ha _ IH]; [reflexivity|].
  cbn [mapM]. rewrite Ha. cbn [mbind result_bind]. rewrite IH. reflexivity.
Qed.

(** It raises what the first failing call raises. *)
Lemma mapM_Raise {A B} (f : A -> result B) (pre post : list A) (a : A) (e : exn) :
  Forall (fun a' => is_ok (f a') = true) pre ->
  f a = Raise e ->
  mapM f (pre ++ a :: post) = Raise e.
Proof.
  intros Hpre Ha. induction Hpre as [|a' pre Hok _ IH]; cbn [app mapM].
  - rewrite Ha. reflexivity.
  - destruct (f a'); [|discriminate]. cbn [mbind result_bind].
    rewrite IH. reflexivity.
Qed.

Section PostPruningFacts.
Context {Features Labels : Type}.
Variable cost_complexity_pruning_path : Features -> Labels -> result (list Q * list Q).
Variable cross_val_score : Q -> Features -> Labels -> result (list Q).

(** With a path computed, candidates left, their cross-validation scores
    returned and a tolerance that is not negative, the selected alpha is a
    candidate within the tolerance and bounds every such candidate. *)
Lemma post_pruning_selected (np_std : list Q -> Q) (X : Features) (y : Labels)
    (ccp_alphas impurities : list Q) (folds : list (list Q)) :
  let alphas := removelast ccp_alphas in
  let mses := fold_mse folds in
  cost_complexity_pruning_path X y = Ok (ccp_alphas, impurities) ->
  alphas <> [] ->
  Forall2 (fun a score => cross_val_score a X y = Ok score) alphas folds ->
  (0 <= np_std mses)%Q ->
  exists selected_alpha lowest,
    post_pruning cost_complexity_pruning_path cross_val_score np_std X y =
    Ok selected_alpha /\
    np_min mses = Ok lowest /\
    In lowest mses /\
    Forall (fun e => (lowest <= e)%Q) mses /\
    (exists i e, alphas !! i = Some selected_alpha /\ mses !! i = Some e /\
                 (e <= lowest + np_std mses)%Q) /\
    (forall i a e, alphas !! i = Some a -> mses !! i = Some e ->
                   (e <= lowest + np_std mses)%Q -> (a <= selected_alpha)%Q).
Proof using Type.
  intros alphas mses Hpath Hne Hfolds Hstd.
  unfold post_pruning, candidate_alphas. rewrite Hpath.
  cbn [mbind result_bind fst]. fold alphas.
  assert (Hlen' : length mses = length alphas).
  { unfold mses, fold_mse. rewrite length_map. symmetry.
    eapply Forall2_length; eassumption. }
  assert (Hmne : mses <> []).
  { intros E. rewrite E in Hlen'. destruct alphas; [congruence|discriminate]. }
  assert (Hif : negb (Nat.eqb (length alphas) 0) = true).
  { destruct alphas; [congruence|reflexivity]. }
  rewrite Hif. unfold scores. rewrite (mapM_Ok _ _ _ Hfolds).
  cbn [mbind result_bind]. fold mses.
  destruct (np_min_spec mses Hmne) as (lowest & Emin & Hin & Hlow).
  rewrite Emin. cbn [mbind result_bind].
  set (bound := (lowest + np_std mses)%Q).
  set (mask := map (fun e => Qle_bool e bound) mses).
  assert (Hmask : forall i a, alphas !! i = Some a -> mask !! i = Some true <->
                    exists e, mses !! i = Some e /\ (e <= bound)%Q).
  { intros i a Ha. unfold mask. rewrite list_lookup_fmap.
    destruct (mses !! i) as [e|] eqn:Ee; cbn.
    - split.
      + intros [= Hb]. exists e. split; [reflexivity|]. now apply Qle_bool_iff.
      + intros (e' & [= <-] & Hle). f_equal. now apply Qle_bool_iff.
    - split; [discriminate|]. intros (e' & ? & _). discriminate. }
  assert (Hsel : select alphas mask <> []).
  { pose proof Hin as Hin'.
    apply list_elem_of_In, list_elem_of_lookup in Hin'. destruct Hin' as (i & Hi).
    assert (Hlt : (i < length alphas)%nat)
      by (rewrite <- Hlen'; eapply lookup_lt_Some; eassumption).
    apply lookup_lt_is_Some in Hlt. destruct Hlt as (a & Ha).
    assert (Hx : In a (select alphas mask)).
    { apply select_spec. exists i. split; [exact Ha|].
      apply (Hmask i a Ha). exists lowest. split; [exact Hi|].
      unfold bound. rewrite <- (Qplus_0_r lowest) at 1.
      apply Qplus_le_r, Hstd. }
    intros E. rewrite E in Hx. exact Hx. }
  destruct (np_max_spec _ Hsel) as (sel & Emax & Hsin & Hbig).
  exists sel, lowest. split; [exact Emax|]. split; [reflexivity|].
  split; [exact Hin|]. split; [exact Hlow|].
  apply select_spec in Hsin. destruct Hsin as (i & Ha & Hm).
  split.
  - apply (Hmask i sel Ha) in Hm. destruct Hm as (e & He & Hle). eauto.
  - intros j a e Hja Hje Hle.
    rewrite List.Forall_forall in Hbig. apply Hbig.
    apply select_spec. exists j. split; [exact Hja|].
    apply (Hmask j a Hja). eauto.
Qed.

(** With at most one alpha on the path nothing is cross-validated. *)
Lemma post_pruning_short_path (np_std : list Q -> Q) (X : Features) (y : Labels)
    (ccp_alphas impurities : list Q) :
  cost_complexity_pruning_path X y = Ok (ccp_alphas, impurities) ->
  removelast ccp_alphas = [] ->
  post_pruning cost_complexity_pruning_path cross_val_score np_std X y = Ok 0%Q.
Proof using Type.
  intros Hpath Hnil. unfold post_pruning, candidate_alphas. rewrite Hpath.
  cbn [mbind result_bind fst]. rewrite Hnil. reflexivity.
Qed.

Variable np_std : list Q -> Q.

(** A standard deviation is never negative. *)
Hypothesis np_std_nonneg : forall l, (0 <= np_std l)%Q.

(** C10: on a dataset whose pruning path scikit-learn computes,
    [post_pruning] returns [0.0] whenever the path has at most one alpha
    (nothing is left once the last one is dropped, and nothing is
    cross-validated).  Otherwise, when the cross-validation in five folds
    returns its scores for every alpha left, it returns one of the computed
    [ccp_alphas], one whose cross-validated mean squared error is within one
    standard deviation of the minimum, and the largest such; and when the
    cross-validation raises for one of them, [post_pruning] raises what the
    first such call raises. *)
Theorem C10_post_pruning_one_standard_error (X : Features) (y : Labels)
    (ccp_alphas impurities : list Q) :
  cost_complexity_pruning_path X y = Ok (ccp_alphas, impurities) ->
  let alphas := removelast ccp_alphas in
  ((length ccp_alphas <= 1)%nat ->
   post_pruning cost_complexity_pruning_path cross_val_score np_std X y = Ok 0%Q) /\
  ((1 < length ccp_alphas)%nat ->
   (forall folds,
      Forall2 (fun a score => cross_val_score a X y = Ok score) alphas folds ->
      let mses := fold_mse folds in
      exists selected_alpha lowest,
        post_pruning cost_complexity_pruning_path cross_val_score np_std X y =
        Ok selected_alpha /\
        In selected_alpha ccp_alphas /\
        In lowest mses /\
        Forall (fun e => (lowest <= e)%Q) mses /\
        (exists i e, alphas !! i = Some selected_alpha /\ mses !! i = Some e /\
                     (e <= lowest + np_std mses)%Q) /\
        (forall i a e, alphas !! i = Some a -> mses !! i = Some e ->
                       (e <= lowest + np_std mses)%Q -> (a <= selected_alpha)%Q)) /\
   (forall pre a post e,
      alphas = pre ++ a :: post ->
      Forall (fun a' => is_ok (cross_val_score a' X y) = true) pre ->
      cross_val_score a X y = Raise e ->
      post_pruning cost_complexity_pruning_path cross_val_score np_std X y =
      Raise e)).
Proof using np_std_nonneg.
  intros Hpath alphas. split.
  - intros Hlen. apply (post_pruning_short_path np_std X y _ _ Hpath).
    apply removelast_nil_iff. exact Hlen.
  - intros Hlen.
    assert (Hne : alphas <> []).
    { intros Hnil. apply removelast_nil_iff in Hnil. lia. }
    split.
    + intros folds Hfolds mses.
      destruct (post_pruning_selected np_std X y ccp_alphas impurities folds
                  Hpath Hne Hfolds (np_std_nonneg _))
        as (sel & lowest & E & _ & Hin & Hlow & Hsel & Hmax).
      exists sel, lowest. split; [exact E|].
      split; [|split; [exact Hin|split; [exact Hlow|split; [exact Hsel|exact Hmax]]]].
      destruct Hsel as (i & e & Hi & _).
      apply In_removelast. apply list_elem_of_In, list_elem_of_lookup. eauto.
    + intros pre a post e Hsplit Hpre Ha.
      unfold post_pruning, candidate_alphas. rewrite Hpath.
      cbn [mbind result_bind fst]. fold alphas.
      assert (Hif : negb (Nat.eqb (length alphas) 0) = true).
      { destruct alphas; [congruence|reflexivity]. }
      rewrite Hif. unfold scores. rewrite Hsplit.
      rewrite (mapM_Raise _ pre post a e Hpre Ha). reflexivity.
Qed.

End PostPruningFacts.

(** ** Matrix product and convex combinations *)

Lemma length_combination (d : nat) (w : list Q) (ps : list (list Q)) :
  Forall (fun p => length p = d) ps -> length (combination d w ps) = d.
Proof.
  intros Hps. revert w. induction Hps as [|p ps Hp _ IH]; intros w.
  - destruct w; cbn; apply repeat_length.
  - destruct w as [|c w]; [cbn; apply repeat_length|].
    cbn [combination zip_with fold_right]. unfold vadd at 1.
    rewrite length_zip_with. fold (combination d w ps).
    rewrite IH. unfold vscale. rewrite length_map. lia.
Qed.

(** Entry [j] of the combination is the weighted sum of the entries [j]. *)
Lemma nth_combination (d j : nat) (w : list Q) (ps : list (list Q)) :
  (j < d)%nat -> length w = length ps -> Forall (fun p => length p = d) ps ->
  (nth j (combination d w ps) 0 == dot w (column j ps))%Q.
Proof.
  intros Hj Hlen Hps. revert w Hlen.
  induction Hps as [|p ps Hp Hps IH]; intros w Hlen.
  - destruct w; [|discriminate]. cbn [combination zip_with fold_right].
    rewrite nth_repeat. reflexivity.
  - destruct w as [|c w]; [discriminate|].
    injection Hlen as Hlen. specialize (IH w Hlen).
    cbn [combination zip_with fold_right]. fold (combination d w ps).
    unfold dot. cbn [column map zip_with Qsum fold_right].
    fold (column j ps). fold (Qsum (zip_with Qmult w (column j ps))).
    fold (dot w (column j ps)). rewrite <- IH.
    pose proof (length_combination d w ps Hps) as Hc.
    rewrite !nth_lookup. unfold vadd, vscale.
    rewrite lookup_zip_with, list_lookup_fmap.
    destruct (lookup_lt_is_Some_2 p j ltac:(lia)) as (x & Hx).
    destruct (lookup_lt_is_Some_2 (combination d w ps) j ltac:(lia)) as (z & Hz).
    rewrite Hx, Hz. cbn. reflexivity.
Qed.

Lemma Forall2_map_seq (f : nat -> Q) (l : list Q) :
  (forall j, (j < length l)%nat -> (f j == nth j l 0)%Q) ->
  Forall2 Qeq (map f (seq 0 (length l))) l.
Proof.
  revert f. induction l as [|x l IH]; intros f Hf; cbn [length seq map].
  - constructor.
  - constructor; [apply (Hf 0%nat); cbn; lia|].
    rewrite <- seq_shift, map_map. apply IH.
    intros j Hj. apply (Hf (S j)). cbn. lia.
Qed.

(** A row of [samples @ parameters] is the combination of the rows of
    [parameters] weighted by the corresponding row of [samples]. *)
Lemma matmul_row_combination (d : nat) (w : list Q) (ps : list (list Q)) :
  length w = length ps -> Forall (fun p => length p = d) ps ->
  Forall2 Qeq (map (fun j => dot w (column j ps)) (seq 0 d)) (combination d w ps).
Proof.
  intros Hlen Hps.
  pose proof (length_combination d w ps Hps) as Hc.
  rewrite <- Hc at 1. apply Forall2_map_seq.
  intros j Hj. rewrite Hc in Hj. symmetry. now apply nth_combination.
Qed.

Lemma vstack_rows_uniform (d : nat) (rows : list (list Q)) :
  rows <> [] -> Forall (fun r => length r = d) rows -> vstack_rows rows = Ok rows.
Proof.
  intros Hne Hall. destruct rows as [|r rows]; [congruence|].
  unfold vstack_rows.
  assert (Hr : length r = d) by (inversion Hall; assumption).
  replace (forallb _ (r :: rows)) with true; [reflexivity|].
  symmetry. apply forallb_forall. intros r' Hr'.
  apply Nat.eqb_eq. rewrite Hr.
  rewrite List.Forall_forall in Hall. apply Hall, Hr'.
Qed.

Lemma matmul_ok (k : nat) (A B : list (list Q)) :
  length B = k -> Forall (fun row => length row = k) A ->
  matmul A B =
  Ok (map (fun row => map (fun j => dot row (column j B))
                          (seq 0 (length (hd [] B)))) A).
Proof.
  intros HB HA. unfold matmul.
  replace (forallb _ A) with true; [reflexivity|].
  symmetry. apply forallb_forall. intros row Hrow.
  apply Nat.eqb_eq. rewrite HB.
  rewrite List.Forall_forall in HA. apply HA, Hrow.
Qed.

(** ** Restoring a parameter vector *)

Lemma split_segments_concat (sizes : list nat) (vec : list Q) :
  length vec = sum_list sizes -> concat (split_segments sizes vec) = vec.
Proof.
  revert vec. induction sizes as [|n sizes IH]; intros vec Hlen; cbn in *.
  - destruct vec; [reflexivity|discriminate].
  - rewrite IH; [apply firstn_skipn|].
    rewrite length_skipn. lia.
Qed.

Lemma length_get_parameter_vector (net : Net) :
  length (get_parameter_vector net) = sum_list (map length (net_parameters net)).
Proof. unfold get_parameter_vector. apply length_concat_sum. Qed.

(** Restoring a vector of the right length succeeds, and flattening the
    result gives the vector back. *)
Lemma vector_to_parameters_ok (net : Net) (vec : list Q) :
  length vec = length (get_parameter_vector net) ->
  exists net', vector_to_parameters net vec = Ok net' /\
               get_parameter_vector net' = vec.
Proof.
  intros Hlen. unfold vector_to_parameters.
  rewrite (proj2 (Nat.eqb_eq _ _) Hlen).
  eexists. split; [reflexivity|].
  unfold get_parameter_vector at 1. cbn [net_parameters].
  apply split_segments_concat.
  rewrite Hlen. apply length_get_parameter_vector.
Qed.

Lemma length_split_segments (sizes : list nat) (vec : list Q) :
  length vec = sum_list sizes -> map length (split_segments sizes vec) = sizes.
Proof.
  revert vec. induction sizes as [|n sizes IH]; intros vec Hlen; cbn in *.
  - reflexivity.
  - rewrite length_firstn, IH; [f_equal; lia|].
    rewrite length_skipn. lia.
Qed.

(** A list and its image are related entry by entry. *)
Lemma Forall2_map_r_diag {A B} (P : A -> B -> Prop) (f : A -> B) (l : list A) :
  Forall (fun x => P x (f x)) l -> Forall2 P l (map f l).
Proof. induction 1; cbn [map]; constructor; assumption. Qed.

(** ** Data augmentation *)

Section AugmentationFacts.
Context {Data : Type}.
Variable compute_APL : list (list Q) -> Data -> Q.
Variable np_random_dirichlet : list Z -> nat -> list (list Q).
Variable np_random_normal : nat -> list Q -> list Q -> list Q.

(** A draw of size [m] from a Dirichlet distribution over [k >= 1]
    categories is [m] points of the simplex. *)
Hypothesis dirichlet_simplex : forall alpha m,
  alpha <> [] ->
  length (np_random_dirichlet alpha m) = m /\
  Forall (simplex (length alpha)) (np_random_dirichlet alpha m).

(** An average path length is never negative (section 4.2). *)
Hypothesis compute_APL_nonneg : forall ps X, (0 <= compute_APL ps X)%Q.

(** The Dirichlet loop, run on a model whose parameter count is the length
    of every row, restores each row in turn into the tensors of the model
    and evaluates the model holding it. *)
Lemma dirichlet_loop_ok (X_train : Data) (model : positive) (sizes : list nat)
    (rows : list (list Q)) :
  Forall (fun r => length r = sum_list sizes) rows ->
  forall (h : gmap positive Net) net pn an,
    h !! model = Some net -> map length (net_parameters net) = sizes ->
    exists h',
      dirichlet_loop compute_APL X_train model rows h pn an =
      (h', Ok (pn ++ rows,
               an ++ map (fun r => compute_APL (split_segments sizes r) X_train) rows)).
Proof using Type.
  induction 1 as [|r rows Hr _ IH]; intros h net pn an Hnet Hsizes.
  - exists h. cbn. rewrite !app_nil_r. reflexivity.
  - cbn [dirichlet_loop]. rewrite Hnet. unfold vector_to_parameters.
    assert (Hlen : length r = length (get_parameter_vector net))
      by (rewrite length_get_parameter_vector, Hsizes; exact Hr).
    rewrite (proj2 (Nat.eqb_eq _ _) Hlen), Hsizes. cbn [net_parameters].
    set (net' := mkNet (split_segments sizes r) (net_training net) (net_device net)).
    destruct (IH (<[model := net']> h) net'
                 (pn ++ [r]) (an ++ [compute_APL (split_segments sizes r) X_train]))
      as (h' & E).
    + apply lookup_insert_eq.
    + apply length_split_segments, Hr.
    + rewrite E. exists h'. rewrite <- !app_assoc. reflexivity.
Qed.

(** C8: for [k >= 1] observations of a common length [d], taken from a model
    with [d] parameters, and every requested count [m], Dirichlet
    augmentation returns exactly [m] synthetic parameter vectors with [m]
    complexity values.  The [i]-th vector has length [d] and is the convex
    combination of the [k] originals whose weights are the [i]-th draw of
    [np.random.dirichlet([1] * k, m)], a point of the simplex over the
    observations; the [i]-th complexity value is [compute_APL] of the model
    holding the [i]-th vector in its tensors, and is not negative. *)
Theorem C8_dirichlet_augmentation (h : gmap positive Net) (X_train : Data)
    (parameters : list (list Q)) (model : positive) (dev : device) (m d : nat)
    (net : Net) :
  parameters <> [] ->
  Forall (fun p => length p = d) parameters ->
  h !! model = Some net ->
  length (get_parameter_vector net) = d ->
  exists h' parameters_new APLs_new,
    augment_data_with_dirichlet compute_APL np_random_dirichlet
      h X_train parameters model dev (Z.of_nat m) =
    (h', Ok (parameters_new, APLs_new)) /\
    length parameters_new = m /\
    length APLs_new = m /\
    Forall2 (fun w p => simplex (length parameters) w /\
                        length p = d /\
                        Forall2 Qeq p (combination d w parameters))
            (np_random_dirichlet (repeat 1 (length parameters)) m)
            parameters_new /\
    Forall2 (fun p APL =>
               APL = compute_APL
                       (split_segments (map length (net_parameters net)) p) X_train /\
               (0 <= APL)%Q)
            parameters_new APLs_new.
Proof using dirichlet_simplex compute_APL_nonneg.
  intros Hne Hlen Hnet Hd.
  unfold augment_data_with_dirichlet.
  assert (Hm : (Z.of_nat m <? 0) = false) by (apply Z.ltb_ge; lia).
  rewrite Hm, Nat2Z.id, (vstack_rows_uniform d parameters Hne Hlen).
  set (alpha := repeat 1 (length parameters)).
  assert (Halpha : length alpha = length parameters) by apply repeat_length.
  assert (Hk : alpha <> []).
  { intros E. rewrite E in Halpha. destruct parameters; [congruence|discriminate]. }
  destruct (dirichlet_simplex alpha m Hk) as [Hcount Hsimplex].
  rewrite Halpha in Hsimplex.
  set (samples := np_random_dirichlet alpha m) in *.
  rewrite (matmul_ok (length parameters) samples parameters eq_refl).
  2:{ eapply Forall_impl; [exact Hsimplex|]. intros w (Hw & _). exact Hw. }
  assert (Hhd : length (hd [] parameters) = d).
  { destruct parameters as [|p ps]; [congruence|]. inversion Hlen; assumption. }
  rewrite Hhd.
  set (row := fun w : list Q => map (fun j => dot w (column j parameters)) (seq 0 d)).
  change (map _ samples) with (map row samples).
  set (sizes := map length (net_parameters net)).
  assert (Hsum : sum_list sizes = d)
    by (unfold sizes; rewrite <- length_get_parameter_vector; exact Hd).
  assert (Hrows : Forall (fun r => length r = sum_list sizes) (map row samples)).
  { apply List.Forall_forall. intros r Hr. apply in_map_iff in Hr.
    destruct Hr as (w & <- & _). unfold row. rewrite length_map, Hsum.
    apply length_seq. }
  set (h1 := alter eval model (alter (to_device dev) model h)).
  assert (Hnet1 : h1 !! model = Some (eval (to_device dev net))).
  { unfold h1. rewrite !lookup_alter_eq, Hnet. reflexivity. }
  destruct (dirichlet_loop_ok X_train model sizes (map row samples) Hrows
              h1 _ [] [] Hnet1 eq_refl) as (h' & E).
  rewrite E. eexists h', _, _. cbn [app].
  split; [reflexivity|].
  split; [rewrite length_map; exact Hcount|].
  split; [rewrite !length_map; exact Hcount|].
  split.
  - apply Forall2_map_r_diag.
    eapply Forall_impl; [exact Hsimplex|]. intros w Hw.
    split; [exact Hw|].
    split; [unfold row; rewrite length_map; apply length_seq|].
    apply matmul_row_combination; [apply Hw|exact Hlen].
  - apply Forall2_map_r_diag. apply List.Forall_forall. intros r _.
    split; [reflexivity|apply compute_APL_nonneg].
Qed.

(** A round of the Gaussian loop writes to a fresh copy only: every object
    the store already held is left as it was. *)
Lemma gaussian_round_frame (X_train : Data) (model : positive) (dev : device)
    (i : nat) (h h' : gmap positive Net) ps apls ps' apls' :
  gaussian_round compute_APL np_random_normal X_train model dev i (h, ps, apls) =
  Some (h', ps', apls') ->
  forall l net, h !! l = Some net -> h' !! l = Some net.
Proof using Type.
  unfold gaussian_round, deepcopy. intros E l net Hl.
  destruct (h !! model) as [net0|] eqn:Hm; [|discriminate]. cbn in E.
  set (c := fresh (dom h)) in *.
  assert (Hc : h !! c = None).
  { apply not_elem_of_dom. unfold c. apply is_fresh. }
  assert (Hne : c <> l) by (intros ->; congruence).
  rewrite lookup_alter_eq, lookup_insert_eq in E. cbn in E.
  injection E as <- _ _.
  rewrite lookup_insert_ne by exact Hne.
  rewrite lookup_alter_ne by exact Hne.
  rewrite lookup_insert_ne by exact Hne.
  exact Hl.
Qed.

(** A round on a store that holds the model succeeds and appends one vector
    and one complexity value. *)
Lemma gaussian_round_returns (X_train : Data) (model : positive) (dev : device)
    (i : nat) (h : gmap positive Net) (net : Net) ps apls :
  h !! model = Some net ->
  exists h' p a,
    gaussian_round compute_APL np_random_normal X_train model dev i (h, ps, apls) =
    Some (h', ps ++ [p], apls ++ [a]).
Proof using Type.
  intros Hm. unfold gaussian_round, deepcopy. rewrite Hm. cbn.
  rewrite lookup_alter_eq, lookup_insert_eq. cbn.
  eexists _, _, _. reflexivity.
Qed.

(** Gaussian augmentation evaluates every synthetic vector on a deep copy:
    the live model, like every other object of the store, is bitwise the same
    after the call. *)
Lemma gaussian_preserves_live_model (h h' : gmap positive Net) (X_train : Data)
    (model : positive) (dev : device) (size : Z) ps apls :
  augment_data_with_gaussian compute_APL np_random_normal h X_train model dev size =
  Some (h', ps, apls) ->
  forall l net, h !! l = Some net -> h' !! l = Some net.
Proof using Type.
  unfold augment_data_with_gaussian.
  generalize (seq 0 (Z.to_nat size)) as rounds.
  intros rounds. revert h' ps apls.
  induction rounds as [|i rounds IH] using rev_ind; intros h' ps apls E l net Hl.
  - cbn in E. injection E as <- _ _. exact Hl.
  - rewrite foldl_app in E. cbn [foldl] in E.
    destruct (foldl _ _ rounds) as [[[h1 ps1] apls1]|] eqn:E1; [|discriminate].
    cbn in E.
    eapply gaussian_round_frame; [exact E|].
    eapply IH; [reflexivity|exact Hl].
Qed.

(** Called on a model the store holds, Gaussian augmentation returns [size]
    synthetic vectors with their complexity values. *)
Lemma gaussian_returns (h : gmap positive Net) (X_train : Data)
    (model : positive) (dev : device) (size : Z) (net : Net) :
  h !! model = Some net ->
  exists h' ps apls,
    augment_data_with_gaussian compute_APL np_random_normal h X_train model dev size =
    Some (h', ps, apls) /\
    length ps = Z.to_nat size /\ length apls = Z.to_nat size /\
    h' !! model = Some net.
Proof using Type.
  intros Hm. unfold augment_data_with_gaussian.
  assert (Hrounds : forall rounds : list nat, exists h' ps apls,
             foldl (fun acc i =>
                      acc ≫= gaussian_round compute_APL np_random_normal
                                X_train model dev i)
                   (Some (h, [], [])) rounds = Some (h', ps, apls) /\
             length ps = length rounds /\ length apls = length rounds /\
             h' !! model = Some net).
  { induction rounds as [|i rounds (h1 & ps1 & apls1 & E1 & Hp & Ha & Hm1)]
      using rev_ind.
    - exists h, [], []. cbn. auto.
    - rewrite foldl_app, E1. cbn [foldl mbind option_bind].
      destruct (gaussian_round_returns X_train model dev i h1 net ps1 apls1 Hm1)
        as (h' & p & a & E).
      rewrite E. exists h', (ps1 ++ [p]), (apls1 ++ [a]).
      split; [reflexivity|]. rewrite !length_app. cbn [length].
      split; [lia|]. split; [lia|].
      eapply gaussian_round_frame; [exact E|exact Hm1]. }
  destruct (Hrounds (seq 0 (Z.to_nat size))) as (h' & ps & apls & E & Hp & Ha & Hm').
  rewrite length_seq in Hp, Ha. eauto 10.
Qed.

End AugmentationFacts.

(** * Concrete runs *)

(** ** The scheduler on the one-weight network *)

Section Runs.
Import OneWeight.

#[local] Existing Instance net.

(** C1, as stated, fails for interval 5 after 5 epochs: no retrain has
    happened yet, the buffer holds 5 observations, which is neither
    [5 mod 5] nor below the interval. *)
Lemma C1_buffer_reaches_interval :
  exists evs s,
    run_epochs (cfg 12 1 5) data_train data_test loader 5
               (initial_state (cfg 12 1 5) 0%Q) = Logged evs (Ok s) /\
    epochs_since_last_retrain 5 evs = 5%nat /\
    length (input_data_surrogate_training s) = 5%nat /\
    length (input_data_surrogate_training s) <>
      (epochs_since_last_retrain 5 evs mod 5)%nat /\
    ~ (Z.of_nat (length (input_data_surrogate_training s)) < sb (cfg 12 1 5)).
Proof.
  destruct (run_epochs_cycle (cfg 12 1 5) data_train data_test loader 0%Q
              ltac:(cbn; lia) 5) as (evs & s & E & Inv).
  exists evs, s. split; [exact E|].
  destruct Inv as [Hbuf _ _ _ _ _ _ Hret _].
  change (Z.to_nat (sb (cfg 12 1 5))) with 5%nat in *.
  change (5 mod 6)%nat with 5%nat in Hbuf.
  assert (Hsince : epochs_since_last_retrain 5 evs = 5%nat).
  { unfold epochs_since_last_retrain. rewrite Hret. reflexivity. }
  rewrite Hsince, Hbuf. repeat split; try reflexivity.
  - cbn. lia.
  - cbn. lia.
Qed.

(** The amended statement after 7 epochs of a run with interval 5: one
    observation, from the epoch that followed the retrain of epoch 6. *)
Lemma C1_witness :
  1 <= sb (cfg 12 1 5) /\
  exists evs s,
    run_epochs (cfg 12 1 5) data_train data_test loader 7
               (initial_state (cfg 12 1 5) 0%Q) = Logged evs (Ok s) /\
    length (input_data_surrogate_training s) = (7 mod (5 + 1))%nat.
Proof.
  split; [cbn; lia|].
  destruct (C1_buffer_counts_epochs_since_retrain (cfg 12 1 5) data_train data_test
              loader 0%Q ltac:(cbn; lia) 7) as (evs & s & E & _ & Hlen & _).
  exists evs, s. split; [exact E|exact Hlen].
Defined.

(** C2, as stated, fails: with interval 5 and 12 epochs the retrains happen
    in epochs 6 and 12, not after epochs 5 and 10 (epochs 6 and 11), and the
    buffer is empty after epoch 12, not of length 2. *)
Lemma C2_retrains_in_epochs_6_and_12 :
  exists evs s,
    epoch_loop (cfg 12 1 5) data_train data_test loader
               (initial_state (cfg 12 1 5) 0%Q) = Logged evs (Ok s) /\
    retrain_epochs evs = [6; 12]%nat /\
    retrain_epochs evs <> [6; 11]%nat /\
    length (input_data_surrogate_training s) = 0%nat /\
    length (input_data_surrogate_training s) <> 2%nat.
Proof.
  destruct (run_epochs_cycle (cfg 12 1 5) data_train data_test loader 0%Q
              ltac:(cbn; lia) 12) as (evs & s & E & Inv).
  exists evs, s. split; [exact E|].
  destruct Inv as [Hbuf _ _ _ _ _ _ Hret _].
  change (Z.to_nat (sb (cfg 12 1 5))) with 5%nat in *.
  change (12 mod 6)%nat with 0%nat in Hbuf.
  assert (Hr : retrain_epochs evs = [6; 12]%nat) by (rewrite Hret; reflexivity).
  rewrite Hr, Hbuf. repeat split; try reflexivity; discriminate.
Qed.

(** Three epochs with interval 5 on the one-weight network. *)
Lemma C3_witness :
  0 < batch (cfg 3 1 5) /\ 1 <= sb (cfg 3 1 5) /\ ep (cfg 3 1 5) <= sb (cfg 3 1 5) /\
  data_train <> [] /\
  In (CallTreeRegularizer Evaluation false false)
     (calls (main (cfg 3 1 5) 0%Q data_train data_test)).
Proof.
  assert (H1 : 0 < batch (cfg 3 1 5)) by (cbn; lia).
  assert (H2 : 1 <= sb (cfg 3 1 5)) by (cbn; lia).
  assert (H3 : ep (cfg 3 1 5) <= sb (cfg 3 1 5)) by (cbn; lia).
  assert (H4 : data_train <> []) by discriminate.
  split; [exact H1|]. split; [exact H2|]. split; [exact H3|]. split; [exact H4|].
  exact (proj1 (C3_test_phase_calls_tree_loss_without_surrogate
                  (cfg 3 1 5) 0%Q data_train data_test H1 H2 H3 H4)).
Defined.

(** C7, as stated, fails twice over.  An interval of 1 is below the minimum
    the specification gives, yet the run takes optimiser steps (two in its
    one standard epoch, one per batch).  And a batch size of 0 does end the
    run before any step, but with the [ValueError] of the [DataLoader]
    constructor, not with [ConfigurationError]. *)
Lemma C7_interval_one_is_accepted :
  sb (cfg 1 1 1) < 2 /\
  training_steps (calls (main (cfg 1 1 1) 0%Q data_train data_test)) = 2%nat /\
  ~ fails_fast (main (cfg 1 1 1) 0%Q data_train data_test) /\
  batch (cfg 1 0 5) <= 0 /\
  main (cfg 1 0 5) 0%Q data_train data_test = Logged [] (Raise ValueError) /\
  ~ fails_fast (main (cfg 1 0 5) 0%Q data_train data_test).
Proof.
  assert (Hsteps : training_steps (calls (main (cfg 1 1 1) 0%Q data_train data_test))
                   = 2%nat) by (vm_compute; reflexivity).
  split; [cbn; lia|]. split; [exact Hsteps|]. split.
  { intros [_ Hnone]. rewrite Hsteps in Hnone. discriminate. }
  split; [cbn; lia|]. split; [reflexivity|].
  intros [Hout _]. discriminate Hout.
Qed.

(** An epoch count of zero: no optimiser step. *)
Lemma C7_witness :
  (ep (cfg 0 1 5) <= 0 \/ batch (cfg 0 1 5) <= 0 \/ sb (cfg 0 1 5) <= 0) /\
  training_steps (calls (main (cfg 0 1 5) 0%Q data_train data_test)) = 0%nat.
Proof.
  assert (H1 : ep (cfg 0 1 5) <= 0 \/ batch (cfg 0 1 5) <= 0 \/ sb (cfg 0 1 5) <= 0)
    by (left; cbn; lia).
  split; [exact H1|].
  exact (proj1 (C7_no_step_for_nonpositive_configuration
                  (cfg 0 1 5) 0%Q data_train data_test H1)).
Defined.

(** Twelve epochs with interval 5: twelve loss entries, all logged. *)
Lemma C9_witness :
  1 <= sb (cfg 12 1 5) /\
  exists evs s,
    epoch_loop (cfg 12 1 5) data_train data_test loader
               (initial_state (cfg 12 1 5) 0%Q) = Logged evs (Ok s) /\
    length (training_loss s) = 12%nat /\
    is_ok (log_training_loss 12 (training_loss s)) = true.
Proof.
  split; [cbn; lia|].
  destruct (C9_one_training_loss_per_epoch (cfg 12 1 5) data_train data_test
              loader 0%Q ltac:(cbn; lia)) as (evs & s & E & Hlen & _ & Hlog & _).
  exists evs, s. split; [exact E|]. split; [exact Hlen|exact Hlog].
Defined.

End Runs.

(** ** Flattening a two-tensor network *)

(** The theorem on the two-tensor network: neither leaf of the primary model
    receives a gradient from the regularisation term. *)
Lemma C6_witness :
  Gradients.primary <> [] /\
  exists parameter_vector,
    params_to_1D_vector Gradients.primary = Ok parameter_vector /\
    values parameter_vector = [1; 2; 3]%Q /\
    ~ receives_gradient
        (regularization_term (1 # 1000) Gradients.surrogate parameter_vector) 0 /\
    ~ receives_gradient
        (regularization_term (1 # 1000) Gradients.surrogate parameter_vector) 1.
Proof.
  assert (Hne : Gradients.primary <> []) by discriminate.
  split; [exact Hne|].
  destruct (C6_regularization_term_is_detached
              (1 # 1000) Gradients.surrogate Gradients.primary Hne)
    as (pv & E & _ & _ & Hno).
  exists pv. split; [exact E|].
  split; [injection E as <-; reflexivity|].
  split; apply Hno; cbn; intuition discriminate.
Defined.

(** ** Augmenting around a live model *)

Lemma Qsum_zeros {A} (l : list A) : (Qsum (map (fun _ => 0%Q) l) == 0)%Q.
Proof.
  induction l as [|x l IH]; [reflexivity|].
  cbn [map Qsum fold_right]. fold (Qsum (map (fun _ : A => 0%Q) l)).
  rewrite IH. reflexivity.
Qed.

(** The vertex draw is a legitimate Dirichlet sample. *)
Lemma vertex_simplex (alpha : list Z) (m : nat) :
  alpha <> [] ->
  length (LiveModel.vertex alpha m) = m /\
  Forall (simplex (length alpha)) (LiveModel.vertex alpha m).
Proof.
  intros Hne. unfold LiveModel.vertex. split; [apply repeat_length|].
  apply List.Forall_forall. intros w Hw. apply repeat_spec in Hw. subst w.
  destruct alpha as [|a rest]; [congruence|].
  split; [cbn; now rewrite length_map|]. split.
  - constructor; [discriminate|].
    apply List.Forall_forall. intros x Hx. apply in_map_iff in Hx.
    destruct Hx as (? & <- & _). apply Qle_refl.
  - cbn [Qsum fold_right]. fold (Qsum (map (fun _ : Z => 0%Q) rest)).
    rewrite Qsum_zeros. reflexivity.
Qed.

Lemma apl_nonneg (ps : list (list Q)) (X : unit) : (0 <= LiveModel.apl ps X)%Q.
Proof.
  unfold LiveModel.apl. induction (concat ps) as [|x l IH]; [apply Qle_refl|].
  cbn [map Qsum fold_right]. fold (Qsum (map Qabs l)).
  rewrite <- (Qplus_0_r 0). apply Qplus_le_compat; [apply Qabs_nonneg|exact IH].
Qed.

(** C5 (what the code does): [augment_data_with_dirichlet] makes no copy.
    Called on the live model with one stored observation and one requested
    sample, it leaves the synthetic vector [5, 6, 7] in the live model, whose
    parameters were [1, 2, 3], and switches it to evaluation mode. *)
Theorem C5_dirichlet_overwrites_live_model :
  exists h' result,
    augment_data_with_dirichlet LiveModel.apl LiveModel.vertex
      LiveModel.heap tt [[5; 6; 7]%Q] 1%positive cpu 1 = (h', Ok result) /\
    LiveModel.heap !! 1%positive = Some (mkNet [[1; 2]; [3]]%Q true cpu) /\
    h' !! 1%positive = Some (mkNet [[5; 6]; [7]]%Q false cpu) /\
    fst result = [[5; 6; 7]%Q].
Proof.
  eexists _, _. split; [vm_compute; reflexivity|].
  split; [vm_compute; reflexivity|].
  split; vm_compute; reflexivity.
Qed.

(** Ten synthetic samples from two observations of a three-parameter
    model. *)
Lemma C8_witness :
  [[5; 6; 7]; [1; 1; 1]]%Q <> [] /\
  Forall (fun p => length p = 3%nat) [[5; 6; 7]; [1; 1; 1]]%Q /\
  LiveModel.heap !! 1%positive = Some LiveModel.live /\
  length (get_parameter_vector LiveModel.live) = 3%nat /\
  exists h' parameters_new APLs_new,
    augment_data_with_dirichlet LiveModel.apl LiveModel.vertex
      LiveModel.heap tt [[5; 6; 7]; [1; 1; 1]]%Q 1%positive cpu 10 =
    (h', Ok (parameters_new, APLs_new)) /\
    length parameters_new = 10%nat /\
    length APLs_new = 10%nat.
Proof.
  assert (H1 : [[5; 6; 7]; [1; 1; 1]]%Q <> []) by discriminate.
  assert (H2 : Forall (fun p => length p = 3%nat) [[5; 6; 7]; [1; 1; 1]]%Q)
    by (repeat constructor).
  assert (H3 : LiveModel.heap !! 1%positive = Some LiveModel.live) by reflexivity.
  assert (H4 : length (get_parameter_vector LiveModel.live) = 3%nat) by reflexivity.
  split; [exact H1|]. split; [exact H2|]. split; [exact H3|]. split; [exact H4|].
  destruct (C8_dirichlet_augmentation LiveModel.apl LiveModel.vertex
              vertex_simplex apl_nonneg
              LiveModel.heap tt _ 1%positive cpu 10 3 LiveModel.live H1 H2 H3 H4)
    as (h' & ps & apls & E & Hn & Hm & _).
  exists h', ps, apls. split; [exact E|]. split; [exact Hn|exact Hm].
Defined.

(** ** Pruning along concrete paths *)

Lemma spread_nonneg (l : list Q) : (0 <= Pruning.spread l)%Q.
Proof. discriminate. Qed.

(** The theorem on the path with four alphas, for ten samples. *)
Lemma C10_witness :
  (forall l, (0 <= Pruning.spread l)%Q) /\
  Pruning.path Pruning.X Pruning.y =
    Ok ([0; 1 # 100; 1 # 50; 1 # 10], [0; 1 # 20; 1 # 10; 1 # 2])%Q /\
  exists selected_alpha,
    post_pruning Pruning.path Pruning.cross_val_score Pruning.spread
                 Pruning.X Pruning.y = Ok selected_alpha /\
    In selected_alpha [0; 1 # 100; 1 # 50; 1 # 10]%Q.
Proof.
  assert (H1 : Pruning.path Pruning.X Pruning.y =
               Ok ([0; 1 # 100; 1 # 50; 1 # 10], [0; 1 # 20; 1 # 10; 1 # 2])%Q)
    by reflexivity.
  split; [exact spread_nonneg|]. split; [exact H1|].
  destruct (proj2 (C10_post_pruning_one_standard_error
                     Pruning.path Pruning.cross_val_score Pruning.spread
                     spread_nonneg Pruning.X Pruning.y _ _ H1) ltac:(cbn; lia))
    as (Hreturns & _).
  destruct (Hreturns [repeat (- (20 # 100)) 5; repeat (- (21 # 100)) 5;
                      repeat (- (30 # 100)) 5]%Q)
    as (a & lowest & E & Hin & _).
  { repeat constructor. }
  exists a. split; [exact E|exact Hin].
Defined.

(** The value selected above: of the alphas 0 and 0.01, whose errors are
    within 0.02 of the minimum 0.20, the larger one. *)
Example post_pruning_selects_larger_alpha :
  post_pruning Pruning.path Pruning.cross_val_score Pruning.spread
               Pruning.X Pruning.y = Ok (1 # 100)%Q.
Proof. vm_compute. reflexivity. Qed.

(** C10 (as first stated): four samples whose pruning path has the two
    alphas 0 and 0.5.  One alpha is left once the last is dropped, the
    cross-validation in five folds refuses the four samples, and
    [post_pruning] raises [ValueError] instead of returning one of the
    alphas. *)
Lemma C10_small_sample_raises :
  Pruning.path_small Pruning.X_small Pruning.y_small = Ok ([0; 1 # 2], [0; 1 # 2])%Q /\
  (1 < length [0; 1 # 2]%Q)%nat /\
  length Pruning.X_small = 4%nat /\
  Pruning.cross_val_score 0 Pruning.X_small Pruning.y_small = Raise ValueError /\
  post_pruning Pruning.path_small Pruning.cross_val_score Pruning.spread
               Pruning.X_small Pruning.y_small = Raise ValueError /\
  ~ exists selected_alpha,
      post_pruning Pruning.path_small Pruning.cross_val_score Pruning.spread
                   Pruning.X_small Pruning.y_small = Ok selected_alpha.
Proof.
  split; [reflexivity|]. split; [cbn; lia|]. split; [reflexivity|].
  split; [reflexivity|]. split; [reflexivity|].
  intros (a & Ha). discriminate Ha.
Qed.

(** * Further properties of [main.py] *)

Section SchedulerMore.
Context `{Collaborators}.

(** ** The epoch, once more, with the snapshot it takes *)

(** A standard epoch appends the flattened parameters of the model it ends
    with, paired with the APL of that same model. *)
Lemma epoch_body_standard_snapshot cfg dtr dte loader s epoch :
  0 < input_batch_size_surrogate_training s ->
  exists m' t x,
    params_to_1D_vector (parameters m') = Ok t /\
    epoch_body cfg dtr dte loader s epoch =
    Logged (flat_map (fun _ => [standard_call epoch s;
                                OptimizerStep (StandardEpoch epoch)]) loader)
           (Ok (mkState m' (surrogate_model s) (surrogate_model_trained s)
                        (input_batch_size_surrogate_training s - 1)
                        (input_data_surrogate_training s ++ [t])
                        (APLs s ++ [average_path_length dtr dte m'])
                        (training_loss s ++ [x])
                        (loss_surrogate_training s))).
Proof.
  intros Hpos. unfold epoch_body. cbn [set_model input_batch_size_surrogate_training].
  apply Z.ltb_lt in Hpos. rewrite Hpos.
  destruct (standard_pass cfg epoch s loader (train_mode (model s)) [])
    as (m' & rl' & E).
  rewrite E, bind_Ok.
  destruct (flatten_model m') as (t & Ht & _ & _).
  cbn [set_model model]. rewrite Ht.
  exists m', t, (np_mean rl'). split; [exact Ht|].
  cbn. rewrite !app_nil_r. reflexivity.
Qed.

(** The two ways an epoch of the macro-cycle can go, with what it logs and
    the state it leaves. *)
Lemma epoch_cases cfg dtr dte loader n evs s :
  1 <= sb cfg ->
  cycle_invariant cfg n evs s ->
  ((n mod S (Z.to_nat (sb cfg)) < Z.to_nat (sb cfg))%nat /\
   exists m' t x,
     params_to_1D_vector (parameters m') = Ok t /\
     epoch_body cfg dtr dte loader s n =
     Logged (flat_map (fun _ => [standard_call n s;
                                 OptimizerStep (StandardEpoch n)]) loader)
            (Ok (mkState m' (surrogate_model s) (surrogate_model_trained s)
                         (input_batch_size_surrogate_training s - 1)
                         (input_data_surrogate_training s ++ [t])
                         (APLs s ++ [average_path_length dtr dte m'])
                         (training_loss s ++ [x])
                         (loss_surrogate_training s)))) \/
  ((n mod S (Z.to_nat (sb cfg)) = Z.to_nat (sb cfg))%nat /\
   length (input_data_surrogate_training s) = Z.to_nat (sb cfg) /\
   exists m' sm sr_loss x,
     epoch_body cfg dtr dte loader s n =
     Logged (TrainSurrogate n (length (input_data_surrogate_training s)) ::
             flat_map (fun _ => [CallTreeRegularizer (RetrainEpoch n) true true;
                                 OptimizerStep (RetrainEpoch n)]) loader)
            (Ok (mkState m' (Some sm) true (sb cfg) [] []
                         (training_loss s ++ [x])
                         (loss_surrogate_training s ++ [sr_loss])))).
Proof.
  intros HN [Hbuf Hcd Hapl Hnum Htl Hflag Hsur Hret Hloss].
  pose proof (Nat.mod_upper_bound n (S (Z.to_nat (sb cfg))) ltac:(lia)) as Hub.
  destruct (Z_lt_le_dec 0 (input_batch_size_surrogate_training s)) as [Hpos|Hle].
  - left. split; [lia|].
    exact (epoch_body_standard_snapshot cfg dtr dte loader s n Hpos).
  - right. split; [lia|]. split; [lia|].
    assert (Hne : input_data_surrogate_training s <> []).
    { intros Enil. rewrite Enil in Hcd. cbn [length] in Hcd. lia. }
    exact (epoch_body_retrain cfg dtr dte loader s n Hle Hne Hnum).
Qed.

(** Induction along a run of the macro-cycle: a property of the log and the
    state that holds at the start and is kept by every epoch holds after any
    number of epochs, none of which raises. *)
Lemma run_epochs_induction cfg dtr dte loader model0
    (P : nat -> list event -> state -> Prop) :
  1 <= sb cfg ->
  P 0%nat [] (initial_state cfg model0) ->
  (forall n evs s evs' s',
     cycle_invariant cfg n evs s -> P n evs s ->
     epoch_body cfg dtr dte loader s n = Logged evs' (Ok s') ->
     P (S n) (evs ++ evs') s') ->
  forall n, exists evs s,
    run_epochs cfg dtr dte loader n (initial_state cfg model0) = Logged evs (Ok s) /\
    cycle_invariant cfg n evs s /\ P n evs s.
Proof.
  intros HN H0 Hstep. induction n as [|n (evs & s & E & Inv & HP)].
  - exists [], (initial_state cfg model0). split; [reflexivity|].
    split; [apply cycle_invariant_initial|exact H0].
  - destruct (epoch_appends_one cfg dtr dte loader n evs s HN Inv)
      as (evs' & s' & x & E' & _).
    destruct (run_epochs_cycle cfg dtr dte loader model0 HN (S n))
      as (evs2 & s2 & E2 & Inv2).
    assert (Erun : run_epochs cfg dtr dte loader (S n) (initial_state cfg model0) =
                   Logged (evs ++ evs') (Ok s')).
    { rewrite run_epochs_S, E, bind_Ok, E'. reflexivity. }
    rewrite Erun in E2. injection E2 as <- <-.
    exists (evs ++ evs'), s'. split; [exact Erun|]. split; [exact Inv2|].
    eapply Hstep; eassumption.
Qed.

Lemma training_steps_pass {A} (ev : event) (ph : phase) (l : list A) :
  is_optimizer_step ev = false ->
  training_steps (flat_map (fun _ => [ev; OptimizerStep ph]) l) = length l.
Proof.
  intros Hev. unfold training_steps. induction l as [|x l IH]; [reflexivity|].
  cbn [flat_map app]. rewrite filter_cons_False by congruence.
  rewrite filter_cons_True by reflexivity. cbn [length]. now rewrite IH.
Qed.

(** ** One pass per epoch *)

(** Every epoch, standard or retrain, takes one optimiser step per
    mini-batch. *)
Lemma steps_in_run cfg dtr dte loader model0 :
  1 <= sb cfg ->
  forall n, exists evs s,
    run_epochs cfg dtr dte loader n (initial_state cfg model0) = Logged evs (Ok s) /\
    cycle_invariant cfg n evs s /\
    training_steps evs = (n * length loader)%nat.
Proof.
  intros HN.
  apply (run_epochs_induction cfg dtr dte loader model0
           (fun n evs _ => training_steps evs = (n * length loader)%nat) HN).
  - reflexivity.
  - intros n evs s evs' s' Inv HP E.
    rewrite training_steps_app, HP.
    destruct (epoch_cases cfg dtr dte loader n evs s HN Inv)
      as [(_ & m' & t & x & _ & E')|(_ & _ & m' & sm & l & x & E')];
      rewrite E' in E; injection E as <- _.
    + rewrite training_steps_pass; [lia|].
      unfold standard_call. destruct (surrogate_model_trained s); reflexivity.
    + change (TrainSurrogate n ?k :: ?l) with ([TrainSurrogate n k] ++ l).
      rewrite training_steps_app, training_steps_pass by reflexivity.
      change (training_steps [TrainSurrogate n _]) with 0%nat. lia.
Qed.

Lemma length_batches_from {A} (n : nat) (cur l : list A) :
  (length cur < n)%nat ->
  length (batches_from n cur l) = ((length cur + length l + n - 1) / n)%nat.
Proof.
  revert cur. induction l as [|x l IH]; intros cur Hcur; cbn [batches_from length].
  - destruct cur as [|c cur].
    + cbn [length]. symmetry. apply Nat.div_small. lia.
    + cbn [length] in *.
      apply (Nat.div_unique _ n 1 (length cur)); lia.
  - destruct (Nat.eqb_spec (S (length cur)) n) as [Heq|Hne].
    + cbn [length]. rewrite IH by (cbn; lia). cbn [length].
      replace (length cur + S (length l) + n - 1)%nat
        with ((0 + length l + n - 1) + 1 * n)%nat by lia.
      rewrite Nat.div_add by lia. lia.
    + rewrite IH by (cbn [length]; lia). cbn [length]. f_equal. lia.
Qed.

(** [main], lines 152-228 and 244-269: with a positive batch size and an
    interval of at least one, the run takes exactly one optimiser step per
    mini-batch in every epoch, standard or retrain alike, and none in the
    test phase: [num_epochs * ceil(len(train) / batch_size)] steps in all. *)
Theorem main_takes_one_step_per_batch_and_epoch cfg model0 dtr dte :
  0 < batch cfg -> 1 <= sb cfg ->
  training_steps (calls (main cfg model0 dtr dte)) =
  (Z.to_nat (ep cfg) *
   ((length dtr + Z.to_nat (batch cfg) - 1) / Z.to_nat (batch cfg)))%nat.
Proof.
  intros Hb HN.
  set (loader := batches_from (Z.to_nat (batch cfg)) [] dtr).
  destruct (steps_in_run cfg dtr dte loader model0 HN (Z.to_nat (ep cfg)))
    as (evs & s & E & Inv & Hsteps).
  destruct (main_after_loop cfg model0 dtr dte evs s Hb E
              (inv_training_loss _ _ _ _ Inv)) as (l1 & l2 & ->).
  cbn [calls]. rewrite !training_steps_app.
  rewrite !training_steps_evaluation by reflexivity.
  rewrite Hsteps. unfold loader.
  rewrite length_batches_from by (cbn [length]; lia).
  change (length (@nil Sample)) with 0%nat.
  rewrite !Nat.add_0_l, Nat.add_0_r. reflexivity.
Qed.

(** ** Retrains *)

Lemma div_succ_lt (n c : nat) :
  (n mod c < c - 1)%nat -> (S n / c = n / c)%nat.
Proof.
  intros Hlt. symmetry.
  apply (Nat.div_unique (S n) c (n / c) (S (n mod c))); [lia|].
  pose proof (Nat.div_mod_eq n c). lia.
Qed.

Lemma div_succ_wrap (n c : nat) :
  c <> 0%nat -> (n mod c = c - 1)%nat ->
  (S n / c = S (n / c))%nat /\ (S n = S (n / c) * c)%nat.
Proof.
  intros Hc Heq. pose proof (Nat.div_mod_eq n c) as Hn.
  assert (Hs : (S n = S (n / c) * c)%nat) by nia.
  split; [|exact Hs]. symmetry.
  apply (Nat.div_unique (S n) c (S (n / c)) 0); [lia|nia].
Qed.

Lemma retrain_sizes_app (evs evs' : list event) :
  retrain_sizes (evs ++ evs') = retrain_sizes evs ++ retrain_sizes evs'.
Proof. apply omap_app. Qed.

Lemma retrain_sizes_pass {A} (ev : event) (ph : phase) (l : list A) :
  retrain_sizes [ev] = [] ->
  retrain_sizes (flat_map (fun _ => [ev; OptimizerStep ph]) l) = [].
Proof.
  intros Hev. induction l as [|x l IH]; [reflexivity|].
  cbn [flat_map]. rewrite retrain_sizes_app, IH.
  destruct ev; try discriminate; reflexivity.
Qed.

(** [main], lines 188-228: with interval [N >= 1], after [n] epochs the
    surrogate has been retrained [n / (N + 1)] times, in the epochs whose
    number is a multiple of [N + 1]; every retrain was given exactly the [N]
    observations of the standard epochs before it, and logged one list of
    surrogate losses. *)
Theorem retrains_every_cycle_on_N_observations cfg dtr dte loader model0 :
  1 <= sb cfg ->
  forall n, exists evs s,
    run_epochs cfg dtr dte loader n (initial_state cfg model0) = Logged evs (Ok s) /\
    retrain_epochs evs =
      map (fun i => (i * S (Z.to_nat (sb cfg)))%nat)
          (seq 1 (n / S (Z.to_nat (sb cfg)))) /\
    retrain_sizes evs = repeat (Z.to_nat (sb cfg)) (n / S (Z.to_nat (sb cfg))) /\
    length (loss_surrogate_training s) = (n / S (Z.to_nat (sb cfg)))%nat.
Proof.
  intros HN n.
  set (N := Z.to_nat (sb cfg)).
  destruct (run_epochs_induction cfg dtr dte loader model0
              (fun n evs s =>
                 retrain_epochs evs = map (fun i => (i * S N)%nat) (seq 1 (n / S N)) /\
                 retrain_sizes evs = repeat N (n / S N) /\
                 length (loss_surrogate_training s) = (n / S N)%nat) HN)
    with (n := n) as (evs & s & E & _ & HP).
  - rewrite Nat.Div0.div_0_l. auto.
  - clear n. intros n evs s evs' s' Inv (Hep & Hsz & Hls) E.
    fold N in Inv.
    destruct (epoch_cases cfg dtr dte loader n evs s HN Inv)
      as [(Hlt & m' & t & x & _ & E')|(Hfull & Hlen & m' & sm & l & x & E')];
      fold N in Hlt || fold N in Hfull, Hlen;
      rewrite E' in E; injection E as <- <-.
    + rewrite (div_succ_lt n (S N)) by lia.
      rewrite retrain_epochs_app, retrain_sizes_app.
      rewrite retrain_epochs_pass, retrain_sizes_pass, !app_nil_r;
        try (unfold standard_call; destruct (surrogate_model_trained s); reflexivity).
      auto.
    + destruct (div_succ_wrap n (S N) ltac:(lia) ltac:(lia)) as [Hdiv Hmul].
      rewrite Hdiv, seq_S, map_app. cbn [repeat]. rewrite repeat_cons.
      change (TrainSurrogate n ?k :: ?l) with ([TrainSurrogate n k] ++ l).
      rewrite !retrain_epochs_app, !retrain_sizes_app.
      rewrite retrain_epochs_pass, retrain_sizes_pass by reflexivity.
      rewrite !app_nil_r, Hep, Hsz, Hlen.
      cbn [retrain_epochs retrain_sizes omap map Nat.add].
      cbn [loss_surrogate_training]. rewrite length_app, Hls. cbn [length].
      split; [|split; [reflexivity|lia]].
      change (retrain_epochs [TrainSurrogate n N]) with [S n].
      rewrite Hmul. reflexivity.
  - exists evs, s. split; [exact E|exact HP].
Qed.

(** ** Observations *)

(** [main], lines 176-182: every buffered observation is the flattened
    parameter vector of one state of the model, cut off from the autograd
    graph and with one entry per scalar, and the APL stored at the same
    position was measured on that very state. *)
Theorem observations_pair_snapshot_with_its_APL cfg dtr dte loader model0 :
  1 <= sb cfg ->
  forall n, exists evs s,
    run_epochs cfg dtr dte loader n (initial_state cfg model0) = Logged evs (Ok s) /\
    Forall2 (fun t apl => exists m,
               params_to_1D_vector (parameters m) = Ok t /\
               apl = average_path_length dtr dte m)
            (input_data_surrogate_training s) (APLs s) /\
    Forall (fun t => history t = [] /\ numel t = parameter_count)
           (input_data_surrogate_training s).
Proof.
  intros HN n.
  destruct (run_epochs_induction cfg dtr dte loader model0
              (fun _ _ s =>
                 Forall2 (fun t apl => exists m,
                            params_to_1D_vector (parameters m) = Ok t /\
                            apl = average_path_length dtr dte m)
                         (input_data_surrogate_training s) (APLs s) /\
                 Forall (fun t => history t = [] /\ numel t = parameter_count)
                        (input_data_surrogate_training s)) HN)
    with (n := n) as (evs & s & E & _ & HP).
  - split; constructor.
  - clear n. intros n evs s evs' s' Inv [Hpair Hdet] E.
    destruct (epoch_cases cfg dtr dte loader n evs s HN Inv)
      as [(_ & m' & t & x & Ht & E')|(_ & _ & m' & sm & l & x & E')];
      rewrite E' in E; injection E as _ <-;
      cbn [input_data_surrogate_training APLs].
    + split.
      * apply Forall2_app; [exact Hpair|]. repeat constructor. eauto.
      * apply Forall_app. split; [exact Hdet|]. repeat constructor.
        -- destruct (flatten_model m') as (t' & Ht' & _ & Hh). congruence.
        -- destruct (flatten_model m') as (t' & Ht' & Hn & _). congruence.
    + split; constructor.
  - exists evs, s. split; [exact E|exact HP].
Qed.

(** ** The first macro-cycle *)

Lemma Forall_pass {A} (P : event -> Prop) (ev ev' : event) (l : list A) :
  P ev -> P ev' -> Forall P (flat_map (fun _ => [ev; ev']) l).
Proof.
  intros Hev Hev'. induction l as [|x l IH]; cbn [flat_map app]; [constructor|].
  constructor; [exact Hev|]. constructor; [exact Hev'|exact IH].
Qed.

(** [main], lines 130-131 and 165-169: with interval [N >= 1] the flag is
    true after [n] epochs exactly when [n > N]; during the first [N] epochs
    the surrogate stays [None] and every batch step computes the plain MSE
    loss. *)
Theorem plain_loss_until_first_retrain cfg dtr dte loader model0 :
  1 <= sb cfg ->
  forall n, exists evs s,
    run_epochs cfg dtr dte loader n (initial_state cfg model0) = Logged evs (Ok s) /\
    surrogate_model_trained s = bool_decide (Z.to_nat (sb cfg) < n)%nat /\
    ((n <= Z.to_nat (sb cfg))%nat ->
     Forall plain_training_event evs /\ surrogate_model s = None).
Proof.
  intros HN n.
  set (N := Z.to_nat (sb cfg)).
  destruct (run_epochs_induction cfg dtr dte loader model0
              (fun n evs s =>
                 (n <= N)%nat ->
                 Forall plain_training_event evs /\ surrogate_model s = None) HN)
    with (n := n) as (evs & s & E & Inv & HP).
  - intros _. split; [constructor|reflexivity].
  - clear n. intros n evs s evs' s' Inv HP E Hn.
    destruct (HP ltac:(lia)) as [Hevs Hnone].
    pose proof (inv_flag _ _ _ _ Inv) as Hflag. fold N in Hflag.
    rewrite bool_decide_eq_false_2 in Hflag by lia.
    destruct (epoch_cases cfg dtr dte loader n evs s HN Inv)
      as [(_ & m' & t & x & _ & E')|(Hfull & _)].
    + rewrite E' in E. injection E as <- <-.
      cbn [surrogate_model]. split; [|exact Hnone].
      apply Forall_app. split; [exact Hevs|].
      unfold standard_call. rewrite Hflag.
      apply Forall_pass; exists n; [left|right]; reflexivity.
    + fold N in Hfull. rewrite Nat.mod_small in Hfull by lia. lia.
  - exists evs, s. split; [exact E|]. split; [|exact HP].
    exact (inv_flag _ _ _ _ Inv).
Qed.

End SchedulerMore.

(** ** The flattening *)

(** [params_to_1D_vector], lines 60-65: a model without parameters makes
    [torch.cat] raise; otherwise the result holds the values of all the
    parameter tensors, in their order, and so has as many entries as the
    tensors have together. *)
Theorem params_to_1D_vector_concatenates :
  params_to_1D_vector [] = Raise RuntimeError /\
  forall p ps, exists t,
    params_to_1D_vector (p :: ps) = Ok t /\
    values t = concat (map values (p :: ps)) /\
    numel t = sum_list (map numel (p :: ps)).
Proof.
  split; [reflexivity|]. intros p ps.
  destruct (params_to_1D_vector_spec (p :: ps) ltac:(discriminate))
    as (t & E & Hv & _).
  exists t. split; [exact E|]. split; [exact Hv|].
  unfold numel at 1. rewrite Hv, length_concat_sum, map_map. reflexivity.
Qed.

(** * Further properties of [utils.py] *)

(** ** Dirichlet augmentation: what it touches and when *)

Section AugmentationMore.
Context {Data : Type}.
Variable compute_APL : list (list Q) -> Data -> Q.
Variable np_random_dirichlet : list Z -> nat -> list (list Q).
Variable np_random_normal : nat -> list Q -> list Q -> list Q.

Lemma dirichlet_loop_frame (X_train : Data) (model l : positive)
    (rows : list (list Q)) :
  l <> model ->
  forall (h : gmap positive Net) pn an,
    fst (dirichlet_loop compute_APL X_train model rows h pn an) !! l = h !! l.
Proof using Type.
  intros Hl. induction rows as [|r rows IH]; intros h pn an; cbn [dirichlet_loop].
  - reflexivity.
  - destruct (h !! model) as [net|]; [|reflexivity].
    destruct (vector_to_parameters net r) as [net'|e]; [|reflexivity].
    rewrite IH. apply lookup_insert_ne. congruence.
Qed.

(** [augment_data_with_dirichlet], lines 276-284: whatever the outcome, the
    only object of the store the call can change is the one [model] refers
    to. *)
Theorem dirichlet_touches_only_its_model (h : gmap positive Net) (X_train : Data)
    (parameters : list (list Q)) (model l : positive) (dev : device)
    (num_new_samples : Z) :
  l <> model ->
  fst (augment_data_with_dirichlet compute_APL np_random_dirichlet
         h X_train parameters model dev num_new_samples) !! l = h !! l.
Proof using Type.
  intros Hl. unfold augment_data_with_dirichlet.
  destruct (num_new_samples <? 0); [reflexivity|].
  destruct (vstack_rows parameters) as [stacked|e]; [|reflexivity].
  destruct (matmul _ stacked) as [rows|e]; [|reflexivity].
  rewrite dirichlet_loop_frame by exact Hl.
  rewrite !lookup_alter_ne by congruence. reflexivity.
Qed.

(** Lines 270-272: a negative sample count is refused by numpy and a list of
    observations that is empty or ragged by [torch.vstack]; either way the
    call raises before it has touched the model. *)
Theorem dirichlet_rejects_before_touching_model (h : gmap positive Net)
    (X_train : Data) (parameters : list (list Q)) (model : positive)
    (dev : device) (num_new_samples : Z) :
  num_new_samples < 0 \/ parameters = [] \/
  (exists p, In p parameters /\ length p <> length (hd [] parameters)) ->
  augment_data_with_dirichlet compute_APL np_random_dirichlet
    h X_train parameters model dev num_new_samples =
  (h, Raise (if num_new_samples <? 0 then ValueError else RuntimeError)).
Proof using Type.
  intros Hbad. unfold augment_data_with_dirichlet.
  destruct (num_new_samples <? 0) eqn:Em; [reflexivity|].
  apply Z.ltb_ge in Em.
  assert (Hv : vstack_rows parameters = Raise RuntimeError).
  { destruct Hbad as [Hm|[->|(p & Hin & Hlen)]]; [lia|reflexivity|].
    destruct parameters as [|r rows]; [destruct Hin|].
    unfold vstack_rows. cbn [hd] in Hlen.
    destruct (forallb _ (r :: rows)) eqn:Eall; [|reflexivity].
    rewrite forallb_forall in Eall. specialize (Eall p Hin).
    apply Nat.eqb_eq in Eall. contradiction. }
  rewrite Hv. reflexivity.
Qed.

(** Lines 276-290 with [num_new_samples = 0]: nothing is sampled and two
    empty lists are returned, yet the model has been moved to the device and
    switched to evaluation mode. *)
Theorem dirichlet_zero_samples_still_switch_mode (h : gmap positive Net)
    (X_train : Data) (parameters : list (list Q)) (model : positive)
    (dev : device) (d : nat) (net : Net) :
  parameters <> [] ->
  Forall (fun p => length p = d) parameters ->
  np_random_dirichlet (repeat 1 (length parameters)) 0 = [] ->
  h !! model = Some net ->
  exists h',
    augment_data_with_dirichlet compute_APL np_random_dirichlet
      h X_train parameters model dev 0 = (h', Ok ([], [])) /\
    h' !! model = Some (mkNet (net_parameters net) false dev).
Proof using Type.
  intros Hne Hlen Hdraw Hnet. unfold augment_data_with_dirichlet.
  change (0 <? 0) with false. change (Z.to_nat 0) with 0%nat.
  rewrite (vstack_rows_uniform d parameters Hne Hlen), Hdraw.
  cbn [matmul forallb map dirichlet_loop].
  eexists. split; [reflexivity|].
  rewrite !lookup_alter_eq, Hnet. reflexivity.
Qed.

(** ** Gaussian augmentation *)

Lemma gaussian_round_sample (X_train : Data) (model : positive) (dev : device)
    (i : nat) (h : gmap positive Net) (net : Net) ps apls :
  h !! model = Some net ->
  exists h',
    gaussian_round compute_APL np_random_normal X_train model dev i (h, ps, apls) =
    Some (h', ps ++ [concat (gaussian_sample np_random_normal net i)],
          apls ++ [compute_APL (gaussian_sample np_random_normal net i) X_train]) /\
    (forall l o, h !! l = Some o -> h' !! l = Some o).
Proof using Type.
  intros Hm.
  assert (E : exists h',
             gaussian_round compute_APL np_random_normal X_train model dev i
               (h, ps, apls) =
             Some (h', ps ++ [concat (gaussian_sample np_random_normal net i)],
                   apls ++ [compute_APL (gaussian_sample np_random_normal net i)
                                        X_train])).
  { unfold gaussian_round, deepcopy. rewrite Hm. cbn.
    rewrite lookup_alter_eq, lookup_insert_eq. cbn.
    eexists. reflexivity. }
  destruct E as (h' & E). exists h'. split; [exact E|].
  intros l o Hl.
  exact (gaussian_round_frame compute_APL np_random_normal X_train model dev i
           h h' ps apls _ _ E l o Hl).
Qed.

(** [augment_data_with_gaussian], lines 316-336: called on a model the store
    holds, it returns [size] samples (none for a size that is not positive).
    Every sample is drawn around the parameters of the live model, not around
    the sample before it, and comes with the complexity of that sample; every
    object the store held, the live model included, is left as it was. *)
Theorem gaussian_samples_around_live_model (h : gmap positive Net)
    (X_train : Data) (model : positive) (dev : device) (size : Z) (net : Net) :
  h !! model = Some net ->
  exists h',
    augment_data_with_gaussian compute_APL np_random_normal h X_train model dev size =
    Some (h',
          map (fun i => concat (gaussian_sample np_random_normal net i))
              (seq 0 (Z.to_nat size)),
          map (fun i => compute_APL (gaussian_sample np_random_normal net i) X_train)
              (seq 0 (Z.to_nat size))) /\
    (forall l o, h !! l = Some o -> h' !! l = Some o).
Proof using Type.
  intros Hm. unfold augment_data_with_gaussian.
  induction (Z.to_nat size) as [|k (h1 & E1 & Hframe1)].
  - exists h. split; [reflexivity|auto].
  - rewrite seq_S, foldl_app, E1, !map_app. cbn [foldl mbind option_bind map Nat.add].
    destruct (gaussian_round_sample X_train model dev k h1 net
                (map (fun i => concat (gaussian_sample np_random_normal net i))
                     (seq 0 k))
                (map (fun i => compute_APL (gaussian_sample np_random_normal net i)
                                           X_train) (seq 0 k))
                (Hframe1 _ _ Hm)) as (h' & E & Hframe).
    exists h'. split; [exact E|]. intros l o Hl. apply Hframe, Hframe1, Hl.
Qed.

End AugmentationMore.

(** ** [post_pruning]: the tolerance *)

Section PostPruningMore.
Context {Features Labels : Type}.
Variable cost_complexity_pruning_path : Features -> Labels -> result (list Q * list Q).
Variable cross_val_score : Q -> Features -> Labels -> result (list Q).

(** [post_pruning], lines 140-149: a wider tolerance never selects a smaller
    alpha.  On a dataset whose pruning path is computed and whose
    cross-validation returns its scores for every alpha but the last, and for
    two spreads that are not negative, the second at least the first on the
    fold errors at hand, both calls return, and the alpha selected under the
    second is at least the one selected under the first. *)
Theorem post_pruning_monotone_in_tolerance (np_std1 np_std2 : list Q -> Q)
    (X : Features) (y : Labels) (ccp_alphas impurities : list Q)
    (folds : list (list Q)) :
  cost_complexity_pruning_path X y = Ok (ccp_alphas, impurities) ->
  Forall2 (fun a score => cross_val_score a X y = Ok score)
          (removelast ccp_alphas) folds ->
  (0 <= np_std1 (fold_mse folds))%Q ->
  (np_std1 (fold_mse folds) <= np_std2 (fold_mse folds))%Q ->
  exists a1 a2,
    post_pruning cost_complexity_pruning_path cross_val_score np_std1 X y = Ok a1 /\
    post_pruning cost_complexity_pruning_path cross_val_score np_std2 X y = Ok a2 /\
    (a1 <= a2)%Q.
Proof using Type.
  intros Hpath Hfolds H1 H12.
  assert (H2 : (0 <= np_std2 (fold_mse folds))%Q) by (eapply Qle_trans; eassumption).
  destruct (removelast ccp_alphas) as [|a0 rest] eqn:Ec.
  - exists 0%Q, 0%Q.
    rewrite !(post_pruning_short_path _ _ _ X y _ _ Hpath Ec).
    split; [reflexivity|]. split; [reflexivity|apply Qle_refl].
  - assert (Hne : removelast ccp_alphas <> []) by (rewrite Ec; discriminate).
    rewrite <- Ec in Hfolds.
    destruct (post_pruning_selected _ _ np_std1 X y _ _ folds Hpath Hne Hfolds H1)
      as (a1 & low1 & E1 & Emin1 & _ & _ & (i & e & Hi & He & Hle) & _).
    destruct (post_pruning_selected _ _ np_std2 X y _ _ folds Hpath Hne Hfolds H2)
      as (a2 & low2 & E2 & Emin2 & _ & _ & _ & Hmax).
    assert (low1 = low2) by congruence. subst low2.
    exists a1, a2. split; [exact E1|]. split; [exact E2|].
    apply (Hmax i a1 e Hi He).
    eapply Qle_trans; [exact Hle|]. apply Qplus_le_r, H12.
Qed.

(** [post_pruning], lines 128-149, as [build_decision_tree] uses it on line
    179-180: on a dataset whose pruning path is computed and whose
    cross-validation returns its scores for every alpha but the last, the
    call returns [0.0] or one of those alphas; when no alpha of the path is
    negative the value is not negative either, which the classifier accepts
    as [ccp_alpha]. *)
Theorem post_pruning_returns_valid_ccp_alpha (np_std : list Q -> Q)
    (X : Features) (y : Labels) (ccp_alphas impurities : list Q)
    (folds : list (list Q)) :
  cost_complexity_pruning_path X y = Ok (ccp_alphas, impurities) ->
  Forall2 (fun a score => cross_val_score a X y = Ok score)
          (removelast ccp_alphas) folds ->
  (0 <= np_std (fold_mse folds))%Q ->
  Forall (fun a => (0 <= a)%Q) ccp_alphas ->
  exists ccp_alpha,
    post_pruning cost_complexity_pruning_path cross_val_score np_std X y =
    Ok ccp_alpha /\
    (ccp_alpha = 0%Q \/ In ccp_alpha (removelast ccp_alphas)) /\
    (0 <= ccp_alpha)%Q.
Proof using Type.
  intros Hpath Hfolds Hstd Hpos.
  destruct (removelast ccp_alphas) as [|a0 rest] eqn:Ec.
  - exists 0%Q. rewrite (post_pruning_short_path _ _ _ X y _ _ Hpath Ec).
    split; [reflexivity|]. split; [left; reflexivity|apply Qle_refl].
  - assert (Hne : removelast ccp_alphas <> []) by (rewrite Ec; discriminate).
    rewrite <- Ec in Hfolds |- *.
    destruct (post_pruning_selected _ _ np_std X y _ _ folds Hpath Hne Hfolds Hstd)
      as (a & low & E & _ & _ & _ & (i & e & Hi & _) & _).
    assert (Hin : In a (removelast ccp_alphas)).
    { apply list_elem_of_In, list_elem_of_lookup. exists i. exact Hi. }
    exists a. split; [exact E|]. split; [right; exact Hin|].
    rewrite List.Forall_forall in Hpos. apply Hpos, In_removelast, Hin.
Qed.

End PostPruningMore.

(** ** Loading data *)

Section LoadingFacts.
Import Loaders.
Variable cast : dtype -> Q -> Q.

(** [get_data_loader] and [dataloader_to_numpy], lines 50-91: for label
    arrays of rank at most two holding one label per row of the features, a
    training set that is not empty and a positive batch size, the three
    loaders are built, only the training loader shuffles, and
    [dataloader_to_numpy] gives back, for each loader, the converted features
    and the converted labels as one column, in their original order. *)
Theorem get_data_loader_round_trip
    (X_train y_train X_test y_test X_val y_val : ndarray)
    (X_type y_type : dtype) (batch_size : Z) :
  (ndim y_train <= 2)%nat ->
  size0 X_train = Some (length (entries y_train)) ->
  size0 X_test = Some (length (entries y_test)) ->
  size0 X_val = Some (length (entries y_val)) ->
  (0 < length (entries y_train))%nat ->
  0 < batch_size ->
  exists train test val,
    get_data_loader cast X_train y_train X_test y_test X_val y_val
                    X_type y_type batch_size = Built (train, test, val) /\
    dataloader_to_numpy train =
      (tensor cast X_train X_type,
       mkArray [length (entries y_train); 1%nat] (map (cast y_type) (entries y_train))) /\
    dataloader_to_numpy test =
      (tensor cast X_test X_type,
       mkArray [length (entries y_test); 1%nat] (map (cast y_type) (entries y_test))) /\
    dataloader_to_numpy val =
      (tensor cast X_val X_type,
       mkArray [length (entries y_val); 1%nat] (map (cast y_type) (entries y_val))) /\
    shuffle train = true /\ shuffle test = false /\ shuffle val = false.
Proof using Type.
  intros Hrank Htr Hte Hva Hrows Hb. unfold get_data_loader.
  rewrite (proj2 (Nat.leb_le _ _) Hrank).
  unfold new_TensorDataset, new_DataLoader, len, tensor, reshape_column, size0 in *.
  cbn [shape entries head] in *.
  rewrite Htr, Hte, Hva, !Nat.eqb_refl.
  assert (Hbs : (batch_size <=? 0) = false) by (apply Z.leb_gt; exact Hb).
  assert (Hn : Nat.eqb (length (entries y_train)) 0 = false)
    by (apply Nat.eqb_neq; lia).
  cbn [mbind built_bind tensors_X shape head andb]. rewrite Htr, Hn, Hbs.
  eexists _, _, _. split; [reflexivity|]. repeat split.
Qed.

(** [get_data_loader], lines 54-63: label arrays of rank at most two are
    reshaped into one column, so training labels with another number of
    entries than the features have rows (one-hot labels, say) make
    [TensorDataset] fail its size assertion, whatever the batch size. *)
Theorem get_data_loader_rejects_labels_with_several_columns
    (X_train y_train X_test y_test X_val y_val : ndarray)
    (X_type y_type : dtype) (batch_size : Z) (n : nat) :
  (ndim y_train <= 2)%nat ->
  size0 X_train = Some n ->
  length (entries y_train) <> n ->
  get_data_loader cast X_train y_train X_test y_test X_val y_val
                  X_type y_type batch_size = Failed AssertionError.
Proof using Type.
  intros Hrank Htr Hlen. unfold get_data_loader.
  rewrite (proj2 (Nat.leb_le _ _) Hrank).
  unfold new_TensorDataset, tensor, reshape_column, size0 in *.
  cbn [shape entries head] in *. rewrite Htr.
  destruct (Nat.eqb_spec n (length (entries y_train))) as [Heq|Hne]; [congruence|].
  reflexivity.
Qed.

End LoadingFacts.

(** ** Colours *)

(** [colormap] with the thresholds of [main], lines 75, 273-274 and 315: one
    colour per point, and colouring the predicted labels (1 above 0.5, -1
    otherwise) gives the colours [main] computes from the raw predictions. *)
Theorem colormap_agrees_with_predicted_labels (y_predicted : list Q) :
  Plotting.colormap (Plotting.y_pred y_predicted) =
  Plotting.colormap_predicted y_predicted /\
  length (Plotting.colormap y_predicted) = length y_predicted.
Proof.
  split; [|apply length_map].
  unfold Plotting.colormap, Plotting.y_pred, Plotting.colormap_predicted.
  rewrite map_map. apply map_ext. intros y.
  destruct (Qle_bool y (1 # 2)); reflexivity.
Qed.

(** * Further concrete runs *)

Section MoreRuns.
Import OneWeight.

#[local] Existing Instance net.

(** Twelve epochs over two batches: twenty-four optimiser steps. *)
Lemma main_takes_one_step_per_batch_and_epoch_witness :
  0 < batch (cfg 12 1 5) /\ 1 <= sb (cfg 12 1 5) /\
  training_steps (calls (main (cfg 12 1 5) 0%Q data_train data_test)) = 24%nat.
Proof.
  assert (H1 : 0 < batch (cfg 12 1 5)) by (cbn; lia).
  assert (H2 : 1 <= sb (cfg 12 1 5)) by (cbn; lia).
  split; [exact H1|]. split; [exact H2|].
  exact (main_takes_one_step_per_batch_and_epoch
           (cfg 12 1 5) 0%Q data_train data_test H1 H2).
Defined.

(** Twelve epochs with interval 5: two retrains, on five observations each. *)
Lemma retrains_every_cycle_on_N_observations_witness :
  1 <= sb (cfg 12 1 5) /\
  exists evs s,
    run_epochs (cfg 12 1 5) data_train data_test loader 12
               (initial_state (cfg 12 1 5) 0%Q) = Logged evs (Ok s) /\
    retrain_epochs evs = [6; 12]%nat /\
    retrain_sizes evs = [5; 5]%nat /\
    length (loss_surrogate_training s) = 2%nat.
Proof.
  assert (H1 : 1 <= sb (cfg 12 1 5)) by (cbn; lia).
  split; [exact H1|].
  exact (retrains_every_cycle_on_N_observations
           (cfg 12 1 5) data_train data_test loader 0%Q H1 12).
Defined.

(** Three epochs with interval 5: three paired observations. *)
Lemma observations_pair_snapshot_with_its_APL_witness :
  1 <= sb (cfg 12 1 5) /\
  exists evs s,
    run_epochs (cfg 12 1 5) data_train data_test loader 3
               (initial_state (cfg 12 1 5) 0%Q) = Logged evs (Ok s) /\
    Forall2 (fun t apl => exists m,
               params_to_1D_vector (parameters m) = Ok t /\
               apl = average_path_length data_train data_test m)
            (input_data_surrogate_training s) (APLs s).
Proof.
  assert (H1 : 1 <= sb (cfg 12 1 5)) by (cbn; lia).
  split; [exact H1|].
  destruct (observations_pair_snapshot_with_its_APL
              (cfg 12 1 5) data_train data_test loader 0%Q H1 3)
    as (evs & s & E & Hpair & _).
  exists evs, s. split; [exact E|exact Hpair].
Defined.

(** Four epochs with interval 5: the flag is still false. *)
Lemma plain_loss_until_first_retrain_witness :
  1 <= sb (cfg 12 1 5) /\
  exists evs s,
    run_epochs (cfg 12 1 5) data_train data_test loader 4
               (initial_state (cfg 12 1 5) 0%Q) = Logged evs (Ok s) /\
    surrogate_model_trained s = false /\
    Forall plain_training_event evs.
Proof.
  assert (H1 : 1 <= sb (cfg 12 1 5)) by (cbn; lia).
  split; [exact H1|].
  destruct (plain_loss_until_first_retrain
              (cfg 12 1 5) data_train data_test loader 0%Q H1 4)
    as (evs & s & E & Hflag & Hplain).
  exists evs, s. split; [exact E|]. split; [exact Hflag|].
  exact (proj1 (Hplain ltac:(cbn; lia))).
Defined.

(** Twelve epochs with interval 5: every loss call of the loop obeys the
    selection rule. *)
Lemma epoch_loop_selects_loss_witness :
  1 <= sb (cfg 12 1 5) /\
  exists evs s,
    epoch_loop (cfg 12 1 5) data_train data_test loader
               (initial_state (cfg 12 1 5) 0%Q) = Logged evs (Ok s) /\
    Forall (fun ev => loss_selection_ok ev = true) evs.
Proof.
  assert (H1 : 1 <= sb (cfg 12 1 5)) by (cbn; lia).
  split; [exact H1|].
  exact (epoch_loop_selects_loss (cfg 12 1 5) data_train data_test loader 0%Q H1).
Defined.

End MoreRuns.

(** A second object in the store is left alone by the Dirichlet call. *)
Lemma dirichlet_touches_only_its_model_witness :
  2%positive <> 1%positive /\
  fst (augment_data_with_dirichlet LiveModel.apl LiveModel.vertex
         (<[2%positive := mkNet [[9]]%Q true cpu]> LiveModel.heap) tt
         [[5; 6; 7]%Q] 1%positive cpu 1) !! 2%positive =
  (<[2%positive := mkNet [[9]]%Q true cpu]> LiveModel.heap) !! 2%positive.
Proof.
  assert (H1 : 2%positive <> 1%positive) by discriminate.
  split; [exact H1|].
  exact (dirichlet_touches_only_its_model LiveModel.apl LiveModel.vertex
           _ tt [[5; 6; 7]%Q] 1%positive 2%positive cpu 1 H1).
Defined.

(** Ragged observations: refused, the store as before. *)
Lemma dirichlet_rejects_before_touching_model_witness :
  (3 < 0 \/ [[5; 6; 7]; [1; 1]]%Q = [] \/
   exists p, In p [[5; 6; 7]; [1; 1]]%Q /\
             length p <> length (hd [] [[5; 6; 7]; [1; 1]]%Q)) /\
  augment_data_with_dirichlet LiveModel.apl LiveModel.vertex
    LiveModel.heap tt [[5; 6; 7]; [1; 1]]%Q 1%positive cpu 3 =
  (LiveModel.heap, Raise RuntimeError).
Proof.
  assert (H1 : 3 < 0 \/ [[5; 6; 7]; [1; 1]]%Q = [] \/
               exists p, In p [[5; 6; 7]; [1; 1]]%Q /\
                         length p <> length (hd [] [[5; 6; 7]; [1; 1]]%Q)).
  { right. right. exists [1; 1]%Q. split; [right; left; reflexivity|discriminate]. }
  split; [exact H1|].
  exact (dirichlet_rejects_before_touching_model LiveModel.apl LiveModel.vertex
           LiveModel.heap tt _ 1%positive cpu 3 H1).
Defined.

(** No sample requested from the live model in training mode. *)
Lemma dirichlet_zero_samples_still_switch_mode_witness :
  [[5; 6; 7]%Q] <> [] /\
  Forall (fun p => length p = 3%nat) [[5; 6; 7]%Q] /\
  LiveModel.vertex (repeat 1 (length [[5; 6; 7]%Q])) 0 = [] /\
  LiveModel.heap !! 1%positive = Some LiveModel.live /\
  exists h',
    augment_data_with_dirichlet LiveModel.apl LiveModel.vertex
      LiveModel.heap tt [[5; 6; 7]%Q] 1%positive cpu 0 = (h', Ok ([], [])) /\
    h' !! 1%positive = Some (mkNet [[1; 2]; [3]]%Q false cpu).
Proof.
  assert (H1 : [[5; 6; 7]%Q] <> []) by discriminate.
  assert (H2 : Forall (fun p => length p = 3%nat) [[5; 6; 7]%Q])
    by (repeat constructor).
  assert (H3 : LiveModel.vertex (repeat 1 (length [[5; 6; 7]%Q])) 0 = [])
    by reflexivity.
  assert (H4 : LiveModel.heap !! 1%positive = Some LiveModel.live) by reflexivity.
  split; [exact H1|]. split; [exact H2|]. split; [exact H3|]. split; [exact H4|].
  exact (dirichlet_zero_samples_still_switch_mode LiveModel.apl LiveModel.vertex
           LiveModel.heap tt _ 1%positive cpu 3 LiveModel.live H1 H2 H3 H4).
Defined.

(** Two Gaussian samples around the live model, the draw that adds one
    standard deviation: both samples are [1.1, 2.2, 3.3]. *)
Lemma gaussian_samples_around_live_model_witness :
  LiveModel.heap !! 1%positive = Some LiveModel.live /\
  exists h' ps apls,
    augment_data_with_gaussian LiveModel.apl
      (fun _ loc scale => zip_with Qplus loc scale)
      LiveModel.heap tt 1%positive cpu 2 = Some (h', ps, apls) /\
    length ps = 2%nat /\
    h' !! 1%positive = Some LiveModel.live.
Proof.
  assert (H1 : LiveModel.heap !! 1%positive = Some LiveModel.live) by reflexivity.
  split; [exact H1|].
  destruct (gaussian_samples_around_live_model LiveModel.apl
              (fun _ loc scale => zip_with Qplus loc scale)
              LiveModel.heap tt 1%positive cpu 2 LiveModel.live H1)
    as (h' & E & Hframe).
  eexists h', _, _. split; [exact E|]. split; [reflexivity|].
  exact (Hframe _ _ H1).
Defined.

(** The fold scores of the path with four alphas on the ten samples. *)
Lemma pruning_folds :
  Forall2 (fun a score =>
             Pruning.cross_val_score a Pruning.X Pruning.y = Ok score)
          (removelast [0; 1 # 100; 1 # 50; 1 # 10]%Q)
          [repeat (- (20 # 100)) 5; repeat (- (21 # 100)) 5;
           repeat (- (30 # 100)) 5]%Q.
Proof. repeat constructor. Qed.

(** The path with four alphas under the tolerances 0.02 and 0.10. *)
Lemma post_pruning_monotone_in_tolerance_witness :
  exists a1 a2,
    post_pruning Pruning.path Pruning.cross_val_score Pruning.spread
                 Pruning.X Pruning.y = Ok a1 /\
    post_pruning Pruning.path Pruning.cross_val_score (fun _ => 1 # 10)%Q
                 Pruning.X Pruning.y = Ok a2 /\
    (a1 <= a2)%Q.
Proof.
  refine (post_pruning_monotone_in_tolerance Pruning.path Pruning.cross_val_score
            Pruning.spread (fun _ => 1 # 10)%Q Pruning.X Pruning.y
            _ _ _ eq_refl pruning_folds _ _); discriminate.
Defined.

(** The path with four alphas, none negative. *)
Lemma post_pruning_returns_valid_ccp_alpha_witness :
  Forall (fun a => (0 <= a)%Q) [0; 1 # 100; 1 # 50; 1 # 10]%Q /\
  exists ccp_alpha,
    post_pruning Pruning.path Pruning.cross_val_score Pruning.spread
                 Pruning.X Pruning.y = Ok ccp_alpha /\
    (ccp_alpha = 0%Q \/ In ccp_alpha (removelast [0; 1 # 100; 1 # 50; 1 # 10]%Q)) /\
    (0 <= ccp_alpha)%Q.
Proof.
  assert (H1 : Forall (fun a => (0 <= a)%Q) [0; 1 # 100; 1 # 50; 1 # 10]%Q)
    by (repeat constructor; discriminate).
  split; [exact H1|].
  refine (post_pruning_returns_valid_ccp_alpha Pruning.path Pruning.cross_val_score
            Pruning.spread Pruning.X Pruning.y _ _ _ eq_refl pruning_folds _ H1).
  discriminate.
Defined.

(** Two samples with two features each and one label each, for all three
    splits. *)
Lemma get_data_loader_round_trip_witness :
  let X := Loaders.mkArray [2; 2]%nat [1; 2; 3; 4]%Q in
  let y := Loaders.mkArray [2%nat] [1; - (1)]%Q in
  (Loaders.ndim y <= 2)%nat /\
  Loaders.size0 X = Some (length (Loaders.entries y)) /\
  (0 < length (Loaders.entries y))%nat /\
  0 < 100 /\
  exists train test val,
    Loaders.get_data_loader (fun _ x => x) X y X y X y
      Loaders.float32 Loaders.float32 100 = Loaders.Built (train, test, val) /\
    Loaders.dataloader_to_numpy train =
      (X, Loaders.mkArray [2; 1]%nat [1; - (1)]%Q) /\
    Loaders.shuffle train = true.
Proof.
  intros X y.
  assert (H1 : (Loaders.ndim y <= 2)%nat) by (cbn; lia).
  assert (H2 : Loaders.size0 X = Some (length (Loaders.entries y))) by reflexivity.
  assert (H3 : 0 < 100) by lia.
  assert (H4 : (0 < length (Loaders.entries y))%nat) by (cbn; lia).
  split; [exact H1|]. split; [exact H2|]. split; [exact H4|]. split; [exact H3|].
  destruct (get_data_loader_round_trip (fun _ x => x) X y X y X y
              Loaders.float32 Loaders.float32 100 H1 H2 H2 H2 H4 H3)
    as (train & test & val & E & Htr & _ & _ & Hsh & _).
  exists train, test, val. split; [exact E|]. split; [exact Htr|exact Hsh].
Defined.

(** Two samples with one-hot labels over two classes. *)
Lemma get_data_loader_rejects_labels_with_several_columns_witness :
  let X := Loaders.mkArray [2; 2]%nat [1; 2; 3; 4]%Q in
  let y := Loaders.mkArray [2; 2]%nat [1; 0; 0; 1]%Q in
  (Loaders.ndim y <= 2)%nat /\
  Loaders.size0 X = Some 2%nat /\
  length (Loaders.entries y) <> 2%nat /\
  Loaders.get_data_loader (fun _ x => x) X y X y X y
    Loaders.float32 Loaders.float32 100 = Loaders.Failed Loaders.AssertionError.
Proof.
  intros X y.
  assert (H1 : (Loaders.ndim y <= 2)%nat) by (cbn; lia).
  assert (H2 : Loaders.size0 X = Some 2%nat) by reflexivity.
  assert (H3 : length (Loaders.entries y) <> 2%nat) by discriminate.
  split; [exact H1|]. split; [exact H2|]. split; [exact H3|].
  exact (get_data_loader_rejects_labels_with_several_columns (fun _ x => x)
           X y X y X y Loaders.float32 Loaders.float32 100 2 H1 H2 H3).
Defined.
